(* ===== verification/_CoqProject ===== *)
-Q . S2P
Prelude.v
JsBuiltins.v
Catalog.v
Scoring.v
Summary.v
Chart.v
Export.v
App.v
