(* ===== verification/Prelude.v ===== *)
(** * Website-Auditor: a verification development of src/script.js

    The program is one browser script, src/script.js, for a static page
    with a checklist of website-audit items.  Its parts, in source order:
    the constant catalog [categories] (lines 2-72); the lookup of the
    page's elements [els] (75-90); the mutable [state] of checked items
    and notes (93-96); [renderChecklist] (99-156), which writes the
    checklist markup and wires a listener to every section header,
    checkbox and notes textarea; [computeScores] (159-190); [renderSummary]
    (193-219), which writes the seven output elements; [drawChart]
    (222-259), an SVG bar chart; [updateSummary] (262-266), which runs
    the three in turn; the controls [expandAll], [collapseAll] and
    [clearAll] (269-279); the start-up code (281-287); and [exportPDF]
    (290-321), which reads the displayed texts back into a jsPDF
    document.  Every state change comes from a user event: a listener
    writes [state], then (for the checkboxes and Clear all) calls
    [updateSummary], which recomputes everything from [state].

    ** Files
    - Prelude.v (this file): the notation scope [audit_scope] with the
      notation [ℚ n] for a count as a rational, the tactics [qconst],
      [qlra] and [vm_decide], the hint database [audit], and the shared
      lemmas on rational sums and means, [toFixed] rounding, [imap] and
      [concat].
    - JsBuiltins.v: the ECMAScript built-ins the script calls
      ([toFixed(0)], number to string, [split], [join], [trim],
      [slice]), modelled from the ECMAScript specification since they
      are not code of the repository, with their laws (a split/join
      round trip, [trim] of a trimmed string).
    - Catalog.v: Modules [Item] and [Category] (records with the
      source's fields), the catalog [categories] entry by entry, the
      element ids of the page and the strings the checklist markup
      interpolates.
    - Scoring.v: [state] as two stdpp [gmap]s, the three writes the
      listeners make ([set_check], [set_note], [clear_checks]) and
      [computeScores] written as the code writes it (a fold filling
      tables keyed by category id, a map reading them back, the mean);
      the abstract report of the spec ([spec_report]) and the
      refinement theorem, with setoid instances for rational equality.
    - Summary.v: [renderSummary] as the record of the texts the seven
      outputs hold ([summary_view]); the outstanding-items loop,
      [overall_class] and the category-score line.
    - Chart.v: [drawChart] as the list of SVG parts it emits, with the
      geometry [xMap], [yMap], [barW], [gap]; the CSS colours the code
      reads from the page are Section variables.
    - Export.v: [exportPDF] as the list of jsPDF calls it makes.
    - App.v: the page (checkboxes, textareas, open sections, outputs,
      chart) with the state as one [app] record, [step] running one user
      event's listener to completion, [init], and the inductive
      [reachable] of the pages the event loop can reach.

    ** Theorems
    - Scoring: [computeScores] refines the spec's report when category
      ids are unique; the overall score is the unweighted mean of the
      category percentages; counts and percentages are bounded
      ([0 <= pct <= 100], completed <= total); the extremes (all
      checked: 100, none: 0); the laws of clearAll (nothing checked,
      keys and notes kept, idempotent, scores of the empty state); the
      mutations refine operations on the set of checked ids.
    - Summary: the outstanding list is the first six unchecked items in
      catalog order, its length, and the placeholder shown exactly when
      all is checked; every score of the shipped catalog is at least
      1/126 away from a rounding tie ([toFixed_robust]), which is why
      exact rationals print the same digits as the browser's doubles;
      and a colour-class defect (79.68 shown as "80%" in "warn").
    - Chart: [yMap] maps 0% and 100% to the plot's edges and back; every
      bar lies inside the plot; bars are evenly spaced and disjoint;
      parts are emitted in category order.
    - Export: the category lines of the PDF are the category texts (a
      split/join round trip); the sixth line collides with the
      "Outstanding Items:" heading; everything fits on the page; the
      placeholder is exported as an item.
    - App: by rule induction on [reachable], every reachable page shows
      the scores of its state, its checkboxes and textareas agree with
      the state, and the state has no key outside the catalog; UI-only
      events change nothing else; Export prints the current report;
      notes survive Clear all; every set of items is reachable.
    - Catalog: the catalog's ids are distinct, the page's element ids
      are distinct, and no catalog string holds markup.

    ** Bounds and fuel
    Every definition is structural (folds over lists and maps); no fuel
    is needed and every operation is total.  Numbers are exact [Q]: the
    counts are small integers, exact in doubles, and the only rounding
    the page shows is [toFixed(0)], which [Summary.toFixed_robust] shows
    is insensitive to the double error for the shipped catalog.

    ** Not modelled
    The markup strings and their parsing by the browser (the checklist
    is represented by the controls it creates, the chart by its parts,
    not their serialisation); [document.getElementById] and
    [querySelectorAll] (their results are the fields of [App.page];
    [Catalog.page_ids_distinct] shows the ids are unique); the jsPDF
    library beyond the calls made to it; [getComputedStyle] (colours are
    parameters); white space outside ASCII in [trim], and [toFixed] on
    numbers of 1e21 or more, which the program never passes. *)

From Stdlib Require Export Ascii String.
From stdpp Require Export base list gmap strings.
From Stdlib Require Export QArith Qround Qabs Lqa DecimalString.

Declare Scope audit_scope.
Delimit Scope audit_scope with audit.

Create HintDb audit.

(** ** Natural numbers as JavaScript numbers *)

(** A JavaScript number that holds a count is an exact rational here:
    every count of the program is a small integer, exact in a double. *)
Definition Q_of_nat (n : nat) : Q := inject_Z (Z.of_nat n).

Notation "'ℚ' n" := (Q_of_nat n) (at level 9, n at level 9) : audit_scope.

Open Scope audit_scope.

(** [Qinv] of a literal computes to a literal, which [lra] reads as a
    constant: [qconst] performs that step everywhere. *)
Ltac qconst := repeat match goal with
  | |- context [Qinv (Qmake ?n ?d)] =>
      let v := eval vm_compute in (Qinv (Qmake n d)) in
      change (Qinv (Qmake n d)) with v
  | H : context [Qinv (Qmake ?n ?d)] |- _ =>
      let v := eval vm_compute in (Qinv (Qmake n d)) in
      change (Qinv (Qmake n d)) with v in H
  end.

(** [qlra]: unfold division, normalise constant inverses, call [lra]. *)
Ltac qlra := unfold Qdiv in *; qconst; lra.

Lemma Q_of_nat_nonneg n : 0 <= ℚ n.
Proof.
  unfold Q_of_nat. change 0%Q with (inject_Z 0). rewrite <- Zle_Qle. lia.
Qed.

Lemma Q_of_nat_add m n : ℚ (m + n) == ℚ m + ℚ n.
Proof. unfold Q_of_nat. rewrite Nat2Z.inj_add, inject_Z_plus. reflexivity. Qed.

Lemma Q_of_nat_le m n : (m <= n)%nat -> ℚ m <= ℚ n.
Proof. intros H. unfold Q_of_nat. rewrite <- Zle_Qle. lia. Qed.

Lemma Q_of_nat_pos n : (0 < n)%nat -> 0 < ℚ n.
Proof.
  intros H. unfold Q_of_nat. change 0%Q with (inject_Z 0).
  rewrite <- Zlt_Qlt. lia.
Qed.

Lemma Q_of_nat_0 : ℚ 0 == 0.
Proof. reflexivity. Qed.

#[export] Hint Resolve Q_of_nat_nonneg Q_of_nat_le Q_of_nat_pos : audit.

(** ** Percentages *)

(** [c / t * 100], the expression [(completed / totals) * 100] of
    computeScores with exact arithmetic. *)
Definition ratio_pct (c t : nat) : Q := ℚ c / ℚ t * 100.

Lemma ratio_pct_nonneg c t : 0 <= ratio_pct c t.
Proof.
  unfold ratio_pct. apply Qmult_le_0_compat; [|discriminate].
  destruct (decide (t = 0%nat)) as [->|Ht].
  - unfold Qdiv. change (/ ℚ 0) with 0. rewrite Qmult_0_r. apply Qle_refl.
  - apply Qle_shift_div_l; [apply Q_of_nat_pos; lia|].
    rewrite Qmult_0_l. apply Q_of_nat_nonneg.
Qed.

Lemma ratio_pct_le_100 c t : (c <= t)%nat -> ratio_pct c t <= 100.
Proof.
  intros Hle. unfold ratio_pct.
  destruct (decide (t = 0%nat)) as [->|Ht].
  - unfold Qdiv. change (/ ℚ 0) with 0. rewrite Qmult_0_r. discriminate.
  - rewrite <- (Qmult_1_l 100) at 2. apply Qmult_le_compat_r; [|discriminate].
    apply Qle_shift_div_r; [apply Q_of_nat_pos; lia|].
    rewrite Qmult_1_l. by apply Q_of_nat_le.
Qed.

Lemma ratio_pct_full t : (0 < t)%nat -> ratio_pct t t == 100.
Proof.
  intros Ht. unfold ratio_pct, Qdiv. rewrite Qmult_inv_r; [apply Qmult_1_l|].
  pose proof (Q_of_nat_pos t Ht). intros E. rewrite E in H. discriminate.
Qed.

Lemma ratio_pct_zero t : ratio_pct 0 t == 0.
Proof. reflexivity. Qed.

#[export] Hint Resolve ratio_pct_nonneg ratio_pct_le_100 : audit.

(** ** Folds as the code writes them ([Array.prototype.reduce]) *)

Lemma fold_left_add_shift {A} (f : A -> nat) (l : list A) (a : nat) :
  fold_left (fun acc x => (acc + f x)%nat) l a = (a + sum_list_with f l)%nat.
Proof.
  revert a; induction l as [|x l IH]; intros a; simpl; [lia|].
  rewrite IH. lia.
Qed.

(** The sum of a list of rationals, as [reduce((s, c) => s + c, 0)]. *)
Definition sumQ (l : list Q) : Q := fold_left Qplus l 0.

Lemma fold_left_Qplus_shift (l : list Q) (a : Q) :
  fold_left Qplus l a == a + fold_left Qplus l 0.
Proof.
  revert a; induction l as [|x l IH]; intros a; simpl; [ring|].
  rewrite (IH (a + x)), (IH (0 + x)). ring.
Qed.

Lemma sumQ_cons x l : sumQ (x :: l) == x + sumQ l.
Proof. unfold sumQ. simpl. rewrite fold_left_Qplus_shift. ring. Qed.

Lemma sumQ_bounds (l : list Q) (lo hi : Q) :
  Forall (fun x => lo <= x <= hi) l ->
  Q_of_nat (length l) * lo <= sumQ l <= Q_of_nat (length l) * hi.
Proof.
  induction 1 as [|x l Hx Hl IH].
  - unfold sumQ; simpl. rewrite !Q_of_nat_0, !Qmult_0_l. split; apply Qle_refl.
  - rewrite sumQ_cons. cbn [length]. replace (S (length l)) with (1 + length l)%nat by lia.
    rewrite Q_of_nat_add, !Qmult_plus_distr_l. change (ℚ 1) with 1.
    rewrite !Qmult_1_l. lra.
Qed.

(** The mean [sum / length] of a non-empty list of values in [[lo, hi]]
    stays in [[lo, hi]]. *)
Lemma mean_bounds (l : list Q) (lo hi : Q) :
  l <> [] -> Forall (fun x => lo <= x <= hi) l ->
  lo <= sumQ l / ℚ (length l) <= hi.
Proof.
  intros Hne Hall. pose proof (sumQ_bounds l lo hi Hall) as [H1 H2].
  assert (Hpos : 0 < ℚ (length l)).
  { apply Q_of_nat_pos. destruct l; [congruence|simpl; lia]. }
  split.
  - apply Qle_shift_div_l; [done|]. rewrite Qmult_comm. done.
  - apply Qle_shift_div_r; [done|]. rewrite Qmult_comm. done.
Qed.

(** Counting with [acc + (p x ? 1 : 0)] counts the elements that satisfy [p]. *)
Lemma sum_list_with_indicator {A} (p : A -> bool) (l : list A) :
  sum_list_with (fun x => if p x then 1 else 0)%nat l = length (filter (fun x => p x = true) l).
Proof.
  induction l as [|x l IH]; simpl; [done|].
  rewrite filter_cons. destruct (p x); simpl; lia.
Qed.

Lemma filter_length_le_all {A} (P : A -> Prop) `{!∀ x, Decision (P x)} (l : list A) :
  length (filter P l) = length l <-> Forall P l.
Proof.
  induction l as [|x l IH]; simpl; [split; auto|].
  rewrite filter_cons, Forall_cons. pose proof (length_filter P l).
  case_decide; simpl.
  - rewrite <- IH. split; [intros; split; [done|lia]|intros [_ ?]; lia].
  - split; [lia|intros [? _]; contradiction].
Qed.

Lemma filter_nil_none {A} (P : A -> Prop) `{!∀ x, Decision (P x)} (l : list A) :
  Forall (fun x => ~ P x) l -> filter P l = [].
Proof. induction 1; rewrite ?filter_cons; [done|]. by case_decide. Qed.

(** ** Rationals compared pointwise *)

Definition Qlist_eq : relation (list Q) := Forall2 Qeq.

#[export] Instance sumQ_proper : Proper (Qlist_eq ==> Qeq) sumQ.
Proof.
  intros l1 l2 H. induction H as [|x y l1 l2 Hxy _ IH]; [reflexivity|].
  rewrite !sumQ_cons, Hxy, IH. reflexivity.
Qed.

(** ** Lists and maps *)

Lemma Forall2_map_same {A B C} (R : B -> C -> Prop) (f : A -> B) (g : A -> C) (l : list A) :
  (forall x, x ∈ l -> R (f x) (g x)) -> Forall2 R (map f l) (map g l).
Proof.
  induction l as [|x l IH]; intros H; simpl; constructor.
  - apply H. left.
  - apply IH. intros y Hy. apply H. by right.
Qed.

(** The keys [Object.keys] enumerates are the keys the object has. *)
Lemma elem_of_map_keys {V} (m : gmap string V) (k : string) :
  k ∈ (map_to_list m).*1 <-> is_Some (m !! k).
Proof.
  rewrite list_elem_of_fmap. split.
  - intros [[k' v] [-> Hin]]. apply elem_of_map_to_list in Hin. by exists v.
  - intros [v Hv]. exists (k, v). split; [done|]. by apply elem_of_map_to_list.
Qed.

(** Decide a closed proposition by evaluating its decision procedure. *)
Ltac vm_decide := apply (bool_decide_unpack _); vm_compute; reflexivity.

(** ** Rounding *)

Lemma Qfloor_unique (y : Q) (k : Z) :
  inject_Z k <= y -> y < inject_Z (k + 1) -> Qfloor y = k.
Proof.
  intros H1 H2. pose proof (Qfloor_le y) as F1. pose proof (Qlt_floor y) as F2.
  assert (A : inject_Z k < inject_Z (Qfloor y + 1)) by (eapply Qle_lt_trans; eauto).
  assert (B : inject_Z (Qfloor y) < inject_Z (k + 1)) by (eapply Qle_lt_trans; eauto).
  rewrite <- Zlt_Qlt in A, B. lia.
Qed.

(** A rational [q = 2N / 126] is never a tie of rounding: [q + 1/2] is
    at least [1/126] away from every integer.  So every [x] closer to
    [q] than [1/126] rounds like [q]. *)
Lemma round_half_up_robust (q x : Q) (N : Z) :
  q == inject_Z (2 * N) / 126 -> Qabs (x - q) < 1 # 126 ->
  Qfloor (x + (1 # 2)) = Qfloor (q + (1 # 2)).
Proof.
  intros Hq Hx. apply Qabs_Qlt_condition in Hx.
  set (k := ((2 * N + 63) / 126)%Z).
  assert (Hk : (126 * k + 1 <= 2 * N + 63 <= 126 * k + 125)%Z).
  { pose proof (Z.div_mod (2 * N + 63) 126 ltac:(lia)).
    pose proof (Z.mod_pos_bound (2 * N + 63) 126 ltac:(lia)). unfold k. lia. }
  destruct Hk as [Hk1 Hk2]. rewrite Zle_Qle in Hk1, Hk2.
  rewrite !inject_Z_plus, !inject_Z_mult in Hk1, Hk2. rewrite inject_Z_mult in Hq.
  change (inject_Z 126) with 126 in *. change (inject_Z 2) with 2 in *.
  change (inject_Z 1) with 1 in *. change (inject_Z 63) with 63 in *.
  change (inject_Z 125) with 125 in *.
  assert (Hy : forall y, q - (1 # 126) < y < q + (1 # 126) -> Qfloor (y + (1 # 2)) = k).
  { intros y Hy. apply Qfloor_unique; rewrite ?inject_Z_plus; change (inject_Z 1) with 1;
      qlra. }
  rewrite (Hy x); [|lra]. rewrite (Hy q); [done|]. split; lra.
Qed.

(** A member of [concat (imap f l)] comes from one element of [l]. *)
Lemma elem_of_concat_imap {A B} (f : nat -> A -> list B) (l : list A) (x : B) :
  x ∈ concat (imap f l) -> exists i y, l !! i = Some y /\ x ∈ f i y.
Proof.
  revert f; induction l as [|y l IH]; intros f Hx; simpl in Hx; [inversion Hx|].
  apply elem_of_app in Hx as [Hx|Hx]; [by exists 0%nat, y|].
  destruct (IH (fun i => f (S i)) Hx) as (i & z & Hi & Hz). by exists (S i), z.
Qed.

(** The [j]-th element of the [i]-th block of a list of blocks of size [k]. *)
Lemma lookup_concat_blocks {A} (ls : list (list A)) (k i j : nat) :
  Forall (fun l => length l = k) ls -> (j < k)%nat ->
  concat ls !! (k * i + j)%nat = ls !! i ≫= (fun l => l !! j).
Proof.
  intros Hall Hj. revert i; induction Hall as [|l ls Hl _ IH]; intros i; [done|].
  simpl. destruct i as [|i]; simpl.
  - rewrite Nat.mul_0_r, lookup_app_l by lia. done.
  - rewrite lookup_app_r by lia. rewrite <- IH. f_equal. lia.
Qed.

Lemma imap_map {A B C} (f : nat -> B -> C) (g : A -> B) (l : list A) :
  imap (fun i x => f i (g x)) l = imap f (map g l).
Proof.
  revert f; induction l as [|x l IH]; intros f; [done|]. simpl. f_equal.
  apply (IH (fun i => f (S i))).
Qed.

Lemma Forall_imap {A B} (P : B -> Prop) (f : nat -> A -> B) (l : list A) :
  (forall i x, (i < length l)%nat -> P (f i x)) -> Forall P (imap f l).
Proof.
  revert f; induction l as [|x l IH]; intros f H; simpl; constructor.
  - apply H. simpl. lia.
  - apply (IH (fun i => f (S i))). intros i y Hi. apply H. simpl. lia.
Qed.
