(* ===== verification/JsBuiltins.v ===== *)
(** * The ECMAScript built-ins that src/script.js calls

    The program calls a handful of standard library functions of
    JavaScript: [Number.prototype.toFixed(0)], the conversion of a number
    to a string inside a template literal, [String.prototype.split],
    [String.prototype.trim], [Array.prototype.join] and
    [Array.prototype.slice(0, k)].  They are not code of the repository:
    this file models each of them from the ECMAScript specification, on
    the inputs the program gives them, and proves the laws the other
    files use (a split/join round trip, trim on trimmed strings).

    Strings are Rocq [string]s, i.e. byte strings: a non-ASCII character
    of the source (such as the bullet of the category-score line) is its
    UTF-8 encoding.  UTF-8 is self-synchronising, so splitting on the
    encoding of a character splits on exactly the occurrences of that
    character, as JavaScript's UTF-16 split does. *)

From S2P Require Import Prelude.

(** ** Numbers to strings *)

(** The decimal digits of a natural number: [`${n}`] for a count. *)
Definition js_nat_to_string (n : nat) : string :=
  NilEmpty.string_of_uint (Nat.to_uint n).

(** [`${z}`] for an integer-valued number. *)
Definition js_Z_to_string (z : Z) : string :=
  match z with
  | Zneg p => "-" +:+ js_nat_to_string (Pos.to_nat p)
  | _ => js_nat_to_string (Z.to_nat z)
  end.

(** [Number.prototype.toFixed(0)] (ECMA-262, 21.1.3.3): for [x >= 0]
    the integer [n] closest to [x], the larger one on a tie, i.e.
    [floor (x + 1/2)]; a negative [x] is printed as ["-"] and the
    digits of [-x].  Values of magnitude [10^21] or more, which
    toFixed prints in exponent notation, never reach it: every number
    the program formats is a percentage in [[0, 100]]. *)
Definition js_round_half_up (x : Q) : Z := Qfloor (x + (1 # 2)).

Definition js_toFixed0 (x : Q) : string :=
  if Qlt_le_dec x 0 then "-" +:+ js_Z_to_string (js_round_half_up (- x))
  else js_Z_to_string (js_round_half_up x).

(** ** Strings *)

(** [String.prototype.split(sep)] with a non-empty separator: the
    pieces between the non-overlapping occurrences of [sep], found left
    to right.  [skip] counts the bytes of a separator occurrence that
    remain to be stepped over. *)
Fixpoint split_go (sep s cur : string) (skip : nat) : list string :=
  match s with
  | EmptyString => [cur]
  | String c s' =>
      match skip with
      | S k => split_go sep s' cur k
      | O =>
          if String.prefix sep s then cur :: split_go sep s' "" (pred (String.length sep))
          else split_go sep s' (cur +:+ String c EmptyString) 0
      end
  end.

Definition js_split (sep s : string) : list string := split_go sep s "" 0.

(** [Array.prototype.join(sep)] of an array of strings. *)
Definition js_join (sep : string) (l : list string) : string := String.concat sep l.

(** The white space that [String.prototype.trim] removes, restricted to
    ASCII (tab, line feed, vertical tab, form feed, carriage return,
    space): no other white-space character occurs in the program's
    strings. *)
Definition js_is_space (c : ascii) : bool :=
  bool_decide (Ascii.nat_of_ascii c ∈ [9; 10; 11; 12; 13; 32]%nat).

(** Drop the white space at the front of a list of characters. *)
Fixpoint drop_spaces (l : list ascii) : list ascii :=
  match l with
  | [] => []
  | c :: l' => if js_is_space c then drop_spaces l' else l
  end.

(** [String.prototype.trim]: white space removed at both ends. *)
Definition js_trim (s : string) : string :=
  string_of_list_ascii (rev (drop_spaces (rev (drop_spaces (list_ascii_of_string s))))).

(** [Array.prototype.slice(0, k)]. *)
Definition js_slice0 {A} (k : nat) (l : list A) : list A := take k l.

(** ** Laws of append *)

(** stdpp makes [String.append] opaque to [simpl]: its two equations. *)
Lemma str_app_nil_l (t : string) : "" +:+ t = t.
Proof. reflexivity. Qed.

Lemma str_app_cons c (s t : string) : String c s +:+ t = String c (s +:+ t).
Proof. reflexivity. Qed.

Lemma str_app_nil_r (s : string) : s +:+ "" = s.
Proof. induction s as [|c s IH]; [done|]. by rewrite str_app_cons, IH. Qed.

Lemma str_app_assoc (s t u : string) : (s +:+ t) +:+ u = s +:+ (t +:+ u).
Proof. induction s as [|c s IH]; [done|]. by rewrite !str_app_cons, IH. Qed.

Lemma las_app (s t : string) :
  list_ascii_of_string (s +:+ t) = list_ascii_of_string s ++ list_ascii_of_string t.
Proof. induction s as [|c s IH]; [done|]. rewrite str_app_cons. simpl. by rewrite IH. Qed.

(** ** Characters in strings *)

(** Whether the character [c] occurs in [s]. *)
Fixpoint has_char (c : ascii) (s : string) : bool :=
  match s with
  | EmptyString => false
  | String c' s' => Ascii.eqb c' c || has_char c s'
  end.

Lemma has_char_app c a b : has_char c (a +:+ b) = has_char c a || has_char c b.
Proof.
  induction a as [|c' a IH]; [done|]. rewrite str_app_cons. simpl. by rewrite IH, orb_assoc.
Qed.

Lemma has_char_here c a b : has_char c (a +:+ String c b) = true.
Proof. rewrite has_char_app. simpl. rewrite Ascii.eqb_refl. by destruct (has_char c a). Qed.

Lemma js_join_cons2 (sep x y : string) l :
  js_join sep (x :: y :: l) = x +:+ sep +:+ js_join sep (y :: l).
Proof. reflexivity. Qed.

(** ** Laws of split *)

Section Split.
Context (c0 : ascii) (sep' : string).
Let sep := String c0 sep'.

Lemma prefix_self_app (s y : string) : String.prefix s (s +:+ y) = true.
Proof.
  induction s as [|c s IH]; [by destruct y|]. rewrite str_app_cons. simpl.
  destruct (ascii_dec c c); [done|congruence].
Qed.

Lemma split_go_skip (z y cur : string) :
  split_go sep (z +:+ y) cur (String.length z) = split_go sep y cur 0.
Proof. induction z as [|c z IH]; [done|]. rewrite str_app_cons. exact IH. Qed.

(** A piece without the separator's first character is copied whole. *)
Lemma split_go_plain (x y cur : string) :
  has_char c0 x = false -> split_go sep (x +:+ y) cur 0 = split_go sep y (cur +:+ x) 0.
Proof.
  revert cur; induction x as [|c x IH]; intros cur Hx; [by rewrite str_app_nil_r|].
  simpl in Hx. apply orb_false_iff in Hx as [Hc Hx]. apply Ascii.eqb_neq in Hc.
  rewrite str_app_cons. unfold sep. simpl.
  destruct (ascii_dec c0 c) as [->|_]; [congruence|].
  rewrite IH by done. by rewrite str_app_assoc.
Qed.

Lemma split_go_at_sep (y cur : string) :
  split_go sep (sep +:+ y) cur 0 = cur :: split_go sep y "" 0.
Proof.
  pose proof (prefix_self_app sep y) as Hp. unfold sep in *. rewrite str_app_cons in *.
  simpl. simpl in Hp. rewrite Hp. by rewrite split_go_skip.
Qed.

Lemma split_go_end (x cur : string) :
  has_char c0 x = false -> split_go sep x cur 0 = [cur +:+ x].
Proof. intros Hx. rewrite <- (str_app_nil_r x) at 1. by rewrite split_go_plain. Qed.

(** The pieces of [join(a + sep + b)] split on [sep]: the separator's
    padding [a] and [b] stays on the pieces. *)
Fixpoint pad_pieces (a b first : string) (l : list string) : list string :=
  match l with
  | [] => [first]
  | y :: l' => (first +:+ a) :: pad_pieces a b (b +:+ y) l'
  end.

Lemma split_join_padded (a b x cur : string) (l : list string) :
  has_char c0 a = false -> has_char c0 b = false -> has_char c0 x = false ->
  Forall (fun y => has_char c0 y = false) l ->
  split_go sep (js_join (a +:+ sep +:+ b) (x :: l)) cur 0 = pad_pieces a b (cur +:+ x) l.
Proof.
  intros Ha Hb Hx Hl. revert x cur Hx; induction Hl as [|y l Hy Hl IH]; intros x cur Hx.
  - apply split_go_end, Hx.
  - rewrite js_join_cons2, !str_app_assoc, split_go_plain by done.
    rewrite split_go_plain by done.
    rewrite split_go_at_sep, split_go_plain by done. rewrite str_app_nil_l, IH by done.
    simpl. by rewrite str_app_assoc.
Qed.
End Split.

(** ** Laws of trim *)

Definition all_spaces (s : string) : bool := forallb js_is_space (list_ascii_of_string s).

Lemma drop_spaces_app (l m : list ascii) :
  drop_spaces (l ++ m) =
    match drop_spaces l with
    | [] => drop_spaces m
    | _ => drop_spaces l ++ m
    end.
Proof.
  induction l as [|c l IH]; [done|]. simpl. destruct (js_is_space c); [done|]. done.
Qed.

Lemma drop_spaces_all (l : list ascii) : forallb js_is_space l = true -> drop_spaces l = [].
Proof.
  induction l as [|c l IH]; [done|]. simpl. intros [-> Hl]%andb_prop. by apply IH.
Qed.

Lemma forallb_rev {A} (f : A -> bool) (l : list A) : forallb f (rev l) = forallb f l.
Proof.
  induction l as [|x l IH]; [done|]. simpl. rewrite forallb_app, IH. simpl.
  by rewrite andb_true_r, andb_comm.
Qed.

(** Spaces added around a string do not survive [trim]. *)
Lemma js_trim_pad (a x b : string) :
  all_spaces a = true -> all_spaces b = true -> js_trim (a +:+ x +:+ b) = js_trim x.
Proof.
  unfold all_spaces, js_trim. intros Ha Hb. rewrite !las_app.
  rewrite drop_spaces_app, (drop_spaces_all _ Ha), drop_spaces_app.
  destruct (drop_spaces (list_ascii_of_string x)) as [|d D] eqn:E.
  - by rewrite (drop_spaces_all _ Hb).
  - rewrite rev_app_distr, drop_spaces_app, (drop_spaces_all (rev _)); [done|].
    by rewrite forallb_rev.
Qed.

(** A string whose first and last characters are not white space is
    its own [trim]. *)
Lemma js_trim_id (s : string) :
  drop_spaces (list_ascii_of_string s) = list_ascii_of_string s ->
  drop_spaces (rev (list_ascii_of_string s)) = rev (list_ascii_of_string s) ->
  js_trim s = s.
Proof.
  intros H1 H2. unfold js_trim. rewrite H1, H2, rev_involutive.
  apply string_of_list_ascii_of_string.
Qed.

(** ** Digits *)

(** The decimal digits of a number never contain the character [c]
    when no digit is [c]. *)
Lemma has_char_uint (c : ascii) (u : Decimal.uint) :
  Forall (fun d => Ascii.eqb d c = false) ["0"; "1"; "2"; "3"; "4"; "5"; "6"; "7"; "8"; "9"]%char ->
  has_char c (NilEmpty.string_of_uint u) = false.
Proof.
  intros Hd. repeat (apply Forall_cons in Hd as [? Hd]).
  induction u; simpl; rewrite ?IHu; try done; by apply orb_false_iff.
Qed.

Lemma has_char_toFixed0 (c : ascii) (q : Q) :
  Forall (fun d => Ascii.eqb d c = false)
    ["-"; "0"; "1"; "2"; "3"; "4"; "5"; "6"; "7"; "8"; "9"]%char ->
  has_char c (js_toFixed0 q) = false.
Proof.
  intros Hd. apply Forall_cons in Hd as [Hm Hd].
  assert (Hz : forall z, has_char c (js_Z_to_string z) = false).
  { intros [|p|p]; unfold js_Z_to_string, js_nat_to_string.
    - by apply has_char_uint.
    - by apply has_char_uint.
    - rewrite has_char_app, has_char_uint by done. cbn [has_char]. by rewrite Hm. }
  unfold js_toFixed0. destruct (Qlt_le_dec q 0); [|apply Hz].
  rewrite has_char_app, Hz. cbn [has_char]. by rewrite Hm.
Qed.

(** Whether a string does not begin with white space. *)
Definition starts_nonspace (s : string) : bool :=
  match s with
  | EmptyString => true
  | String c _ => negb (js_is_space c)
  end.

(** The padded pieces of a split trim back to the joined strings. *)
Lemma pad_pieces_trim (a b c x : string) (l : list string) :
  all_spaces a = true -> all_spaces b = true -> all_spaces c = true ->
  map js_trim (pad_pieces a b (c +:+ x) l) = map js_trim (x :: l).
Proof.
  intros Ha Hb. revert c x; induction l as [|y l IH]; intros c x Hc; simpl.
  - rewrite <- (str_app_nil_r x) at 1. by rewrite js_trim_pad.
  - rewrite str_app_assoc, js_trim_pad by done. f_equal. by rewrite IH.
Qed.
