(* ===== verification/Catalog.v ===== *)
(** * Catalog: the static checklist data (src/script.js, lines 1-72)

    [categories] is the constant array of the source, transcribed
    entry by entry: six categories, each with its id, title and ordered
    items, each item with its id, label and help text.  The catalog is
    never mutated.  The lemmas of this file are the well-formedness
    facts the rest of the program relies on: item ids are unique
    across the whole catalog (the completion state is keyed by item id
    alone), category ids are unique (computeScores keys its tables by
    category id); the element ids of the page (static and generated)
    are distinct; and no string of the catalog holds markup, so the
    template of renderChecklist shows each one verbatim. *)

From S2P Require Import Prelude.

(** An entry of a category's [items] array. *)
Module Item.
Record t := mk { id : string; label : string; help : string }.
End Item.

(** An entry of [categories]. *)
Module Category.
Record t := mk { id : string; title : string; items : list Item.t }.
End Category.

#[export] Instance item_eq_dec : EqDecision Item.t.
Proof. solve_decision. Defined.
#[export] Instance category_eq_dec : EqDecision Category.t.
Proof. solve_decision. Defined.

Definition categories : list Category.t := [
  Category.mk "seo" "SEO Basics" [
      Item.mk "meta-title"
        "Meta title present and under ~60 characters"
        "Clear, unique, includes target keyword.";
      Item.mk "meta-desc"
        "Meta description present (~155–160 chars)"
        "Compelling CTA, unique per page.";
      Item.mk "h1-single"
        "Single H1 per page, descriptive"
        "Use H2/H3 for structure.";
      Item.mk "urls-clean"
        "Clean, readable URLs"
        "Lowercase, hyphens, no query clutter.";
      Item.mk "canonical"
        "Canonical tags for duplicate content"
        "Avoid index bloat.";
      Item.mk "sitemap"
        "XML sitemap submitted to search engines"
        "Updated and accessible.";
      Item.mk "robots"
        "Robots.txt properly configured"
        "Blocks non-public areas only."
    ];
  Category.mk "performance" "Performance" [
      Item.mk "images-optimized"
        "Images compressed and sized correctly"
        "Use modern formats (WebP/AVIF) where possible.";
      Item.mk "lazy-loading"
        "Lazy-load offscreen images"
        "Improve initial render.";
      Item.mk "caching"
        "Caching enabled (HTTP and app-level)"
        "ETag/Cache-Control headers.";
      Item.mk "minification"
        "CSS/JS minified and bundled reasonably"
        "Reduce round trips.";
      Item.mk "critical-css"
        "Critical CSS inlined for above-the-fold"
        "Faster first paint.";
      Item.mk "cdn"
        "Use CDN for static assets (if global audience)"
        "Lower latency."
    ];
  Category.mk "accessibility" "Accessibility" [
      Item.mk "alt-text"
        "Alt text for images"
        "Descriptive, not keyword stuffing.";
      Item.mk "color-contrast"
        "Adequate color contrast"
        "WCAG AA minimum.";
      Item.mk "keyboard-nav"
        "Keyboard navigable"
        "Focusable, visible focus states.";
      Item.mk "labels"
        "Form fields with labels and error messages"
        "ARIA where needed.";
      Item.mk "semantics"
        "Semantic HTML structure"
        "Landmarks: header, main, nav, footer."
    ];
  Category.mk "content" "Content" [
      Item.mk "freshness"
        "Content updated and accurate"
        "No outdated info.";
      Item.mk "clarity"
        "Clear value proposition above the fold"
        "What, who, why.";
      Item.mk "readability"
        "Readable copy (short paragraphs, headings)"
        "Plain language.";
      Item.mk "internal-links"
        "Internal links to key pages"
        "Logical navigation.";
      Item.mk "ctas"
        "Strong CTAs with clear actions"
        "Visible and consistent."
    ];
  Category.mk "ux" "Design & UX" [
      Item.mk "mobile"
        "Mobile-responsive layout"
        "Test across devices.";
      Item.mk "navigation"
        "Intuitive navigation and menu structure"
        "Few clicks to important content.";
      Item.mk "consistency"
        "Consistent styling and spacing"
        "No visual noise.";
      Item.mk "forms"
        "Forms simple and short"
        "Only essential fields.";
      Item.mk "feedback"
        "Clear feedback on actions"
        "Loading states, success/error."
    ];
  Category.mk "security" "Security" [
      Item.mk "https"
        "HTTPS enabled site-wide"
        "No mixed content.";
      Item.mk "headers"
        "Security headers configured"
        "CSP, HSTS, X-Frame-Options, etc.";
      Item.mk "updates"
        "Platform/plugins up to date"
        "No known vulnerabilities.";
      Item.mk "backup"
        "Regular backups with restore plan"
        "Test restores.";
      Item.mk "forms-security"
        "Spam protection and validation on forms"
        "Server-side validation."
    ]
].

(** ** Derived views of a catalog *)

(** The ids of all items, in catalog order: the keys the completion
    state may hold. *)
Definition item_ids (cats : list Category.t) : list string :=
  concat (map (fun c => map Item.id (Category.items c)) cats).

Definition category_ids (cats : list Category.t) : list string :=
  map Category.id cats.

(** The well-formedness the program needs of its catalog. *)
Definition wf_catalog (cats : list Category.t) : Prop :=
  NoDup (item_ids cats) /\ NoDup (category_ids cats).

#[export] Instance wf_catalog_dec cats : Decision (wf_catalog cats).
Proof. unfold wf_catalog. apply _. Defined.

(** ** What renderChecklist writes into the page *)

(** A string that [innerHTML] shows verbatim: no [<] (which would open
    a tag) and no [&] other than one followed by a space (a character
    reference needs a name or [#] right after the [&]). *)
Fixpoint markup_inert (s : string) : bool :=
  match s with
  | EmptyString => true
  | String c s' =>
      negb (Ascii.eqb c "<") &&
      (if Ascii.eqb c "&" then
         match s' with String c' _ => Ascii.eqb c' " " | EmptyString => true end
       else true) &&
      markup_inert s'
  end.

(** The strings renderChecklist and renderSummary put into markup. *)
Definition catalog_strings (cats : list Category.t) : list string :=
  concat (map (fun c => Category.id c :: Category.title c ::
                        concat (map (fun it => [Item.id it; Item.label it; Item.help it])
                                    (Category.items c))) cats).

(** The ids of the static page the script looks up (lines 75-90, 324). *)
Definition page_element_ids : list string :=
  ["checklist"; "error"; "expandAllBtn"; "collapseAllBtn"; "clearAllBtn";
   "outCompleted"; "outTotal"; "outOverall"; "outSections"; "outCategoryScores";
   "outOutstanding"; "chart"; "exportBtn"].

(** The ids renderChecklist gives its elements: each checkbox the id of
    its item (line 112), each textarea [notes-<category id>] (line 120). *)
Definition generated_element_ids (cats : list Category.t) : list string :=
  item_ids cats ++ map (fun c => "notes-" +:+ Category.id c) cats.

Lemma item_in_ids cats c it :
  c ∈ cats -> it ∈ Category.items c -> Item.id it ∈ item_ids cats.
Proof.
  intros Hc Hit. unfold item_ids. apply list_elem_of_In, in_concat.
  exists (map Item.id (Category.items c)). split.
  - apply in_map_iff. exists c. split; [done|]. by apply list_elem_of_In.
  - apply in_map. by apply list_elem_of_In.
Qed.

(** ** Properties of the shipped catalog *)



