(* ===== verification/Scoring.v ===== *)
(** * Scoring: the completion state and computeScores (src/script.js)

    The mutable [state] object of the source (lines 92-96) is a record
    of two finite maps: [checks] (item id to boolean, the JS object
    [state.checks]) and [notes] (category id to text).  The handlers
    that write it are [set_check] (the checkbox change listener, line
    144), [set_note] (the notes input listener, line 153) and
    [clear_checks] (the loop of clearAll, line 276).

    [computeScores] (lines 159-190) is modelled as the code writes it:
    a [forEach] over the categories that fills the two objects [totals]
    and [completed] keyed by category id and the two running sums, then
    a [map] that reads the objects back by category id, then the mean.
    Numbers are exact rationals [Q]; Summary.v shows that the display
    rounding cannot tell them from the doubles of the source.

    The theorems show that this implementation refines the abstract
    score of the spec ([spec_pct]: checked items of the category over
    its size, 0 for an empty category) when category ids are unique,
    that the overall score is the unweighted mean, the bounds on counts
    and percentages, and the laws of the mutations. *)

From S2P Require Import Prelude Catalog.

(** ** State (lines 92-96) *)

Record state := mkState {
  checks : gmap string bool;   (* { itemId: boolean } *)
  notes : gmap string string   (* { categoryId: string } *)
}.

Definition initial_state : state := mkState ∅ ∅.

(** [state.checks[id]] read as a condition: an absent key is
    [undefined], which is falsy, like [false]. *)
Definition is_checked (cks : gmap string bool) (id : string) : bool :=
  match cks !! id with
  | Some true => true
  | _ => false
  end.

(** ** Mutations *)

(** The checkbox listener, line 144: [state.checks[cb.dataset.item] = cb.checked]. *)
Definition set_check (id : string) (b : bool) (st : state) : state :=
  mkState (<[id := b]> (checks st)) (notes st).

(** The notes listener, line 153: [state.notes[cat.id] = ta.value]. *)
Definition set_note (cid : string) (text : string) (st : state) : state :=
  mkState (checks st) (<[cid := text]> (notes st)).

(** clearAll, line 276: [Object.keys(state.checks).forEach(id =>
    (state.checks[id] = false))].  The loop runs over the keys present
    in the object, in whatever order [Object.keys] gives them. *)
Definition clear_checks_loop (keys : list string) (cks : gmap string bool) : gmap string bool :=
  fold_left (fun m id => <[id := false]> m) keys cks.

Definition clear_checks (st : state) : state :=
  mkState (clear_checks_loop (map_to_list (checks st)).*1 (checks st)) (notes st).

(** ** computeScores (lines 159-190) *)

(** An entry of [categoryPercents]: [{ id, title, pct }]. *)
Record cat_pct := mkCatPct { cp_id : string; cp_title : string; cp_pct : Q }.

(** The object computeScores returns. *)
Record scores := mkScores {
  totals : gmap string nat;
  completed : gmap string nat;
  totalItems : nat;
  totalCompleted : nat;
  categoryPercents : list cat_pct;
  overall : Q
}.

(** Line 167: [cat.items.reduce((acc, item) => acc + (state.checks[item.id] ? 1 : 0), 0)]. *)
Definition comp_count (cks : gmap string bool) (cat : Category.t) : nat :=
  fold_left (fun acc item => acc + (if is_checked cks (Item.id item) then 1 else 0))%nat
    (Category.items cat) 0%nat.

(** The four variables the [forEach] of lines 165-171 updates. *)
Record tally := mkTally {
  t_totals : gmap string nat;
  t_completed : gmap string nat;
  t_items : nat;
  t_completed_sum : nat
}.

Definition empty_tally : tally := mkTally ∅ ∅ 0 0.

(** One iteration of the [forEach] body, lines 166-170. *)
Definition tally_category (cks : gmap string bool) (a : tally) (cat : Category.t) : tally :=
  let n := length (Category.items cat) in
  let c := comp_count cks cat in
  mkTally (<[Category.id cat := n]> (t_totals a))
          (<[Category.id cat := c]> (t_completed a))
          (t_items a + n) (t_completed_sum a + c).

Definition tally_all (cats : list Category.t) (cks : gmap string bool) : tally :=
  fold_left (tally_category cks) cats empty_tally.

(** Line 174: [totals[cat.id] ? (completed[cat.id] / totals[cat.id]) * 100 : 0].
    [totals[cat.id]] is falsy when absent or 0.  [completed] has a key
    wherever [totals] has one (both are written together); the [None]
    branch, where JavaScript would compute [NaN], is never taken. *)
Definition category_pct (tot comp : gmap string nat) (cat : Category.t) : cat_pct :=
  let pct :=
    match tot !! Category.id cat with
    | Some t =>
        if decide (t = 0%nat) then 0
        else match comp !! Category.id cat with
             | Some c => ratio_pct c t
             | None => 0
             end
    | None => 0
    end in
  mkCatPct (Category.id cat) (Category.title cat) pct.

(** Lines 178-180: the mean of the percentages, 0 for no category. *)
Definition mean_pct (cps : list cat_pct) : Q :=
  match length cps with
  | O => 0
  | _ => sumQ (map cp_pct cps) / ℚ (length cps)
  end.

Definition computeScores (cats : list Category.t) (st : state) : scores :=
  let t := tally_all cats (checks st) in
  let cps := map (category_pct (t_totals t) (t_completed t)) cats in
  mkScores (t_totals t) (t_completed t) (t_items t) (t_completed_sum t) cps (mean_pct cps).

(** ** The abstract score of the spec *)

(** The number of items of [cat] that are checked. *)
Definition completed_in (cks : gmap string bool) (cat : Category.t) : nat :=
  length (filter (fun it => is_checked cks (Item.id it) = true) (Category.items cat)).

(** A category's percentage as the spec states it: checked items over
    items, times 100, and 0 for an empty category. *)
Definition spec_pct (cks : gmap string bool) (cat : Category.t) : Q :=
  match Category.items cat with
  | [] => 0
  | _ => ratio_pct (completed_in cks cat) (length (Category.items cat))
  end.

Definition spec_percents (cats : list Category.t) (cks : gmap string bool) : list cat_pct :=
  map (fun c => mkCatPct (Category.id c) (Category.title c) (spec_pct cks c)) cats.

(** The report the spec promises (section 4.1 of the spec): the
    catalog-wide counts, the per-category percentages and their mean. *)
Record report := mkReport {
  r_totalItems : nat;
  r_totalCompleted : nat;
  r_percents : list cat_pct;
  r_overall : Q
}.

Definition spec_report (cats : list Category.t) (cks : gmap string bool) : report :=
  mkReport (sum_list_with (fun c => length (Category.items c)) cats)
           (sum_list_with (completed_in cks) cats)
           (spec_percents cats cks)
           (match cats with
            | [] => 0
            | _ => sumQ (map (spec_pct cks) cats) / ℚ (length cats)
            end).

(** The part of computeScores' result the spec speaks of (the
    [totals] and [completed] tables are internal to the code). *)
Definition report_of (s : scores) : report :=
  mkReport (totalItems s) (totalCompleted s) (categoryPercents s) (overall s).

(** ** Fixtures *)

(** The scenario of the spec (section 8): two categories of 3 and 5
    items, the three items of the first one checked. *)
Definition scenario_cats : list Category.t := [
  Category.mk "a" "A" [Item.mk "a1" "" ""; Item.mk "a2" "" ""; Item.mk "a3" "" ""];
  Category.mk "b" "B" [Item.mk "b1" "" ""; Item.mk "b2" "" ""; Item.mk "b3" "" "";
                       Item.mk "b4" "" ""; Item.mk "b5" "" ""]
].

Definition scenario_state : state :=
  set_check "a3" true (set_check "a2" true (set_check "a1" true initial_state)).

(** The state after ticking every item of a catalog, in order. *)
Definition all_checked_state (cats : list Category.t) : state :=
  fold_left (fun st id => set_check id true st) (item_ids cats) initial_state.

(** A state of the real catalog: one SEO item and one security item
    checked, one performance item ticked and unticked again. *)
Definition sample_state : state :=
  set_check "cdn" false (set_check "https" true
    (set_check "cdn" true (set_check "meta-title" true initial_state))).

(** The abstract completion state of the spec: the set of checked ids. *)
Definition abs_checked (cks : gmap string bool) : gset string :=
  dom (filter (fun kv => kv.2 = true) cks).

(** Two entries are equivalent when their ids and titles agree and
    their percentages are equal rationals. *)
#[export] Instance cat_pct_equiv : Equiv cat_pct := fun a b =>
  cp_id a = cp_id b /\ cp_title a = cp_title b /\ cp_pct a == cp_pct b.

#[export] Instance cat_pct_equivalence : Equivalence (≡@{cat_pct}).
Proof.
  split.
  - intros a. repeat split; reflexivity.
  - intros a b (?&?&?). repeat split; by symmetry.
  - intros a b c (?&?&Hab) (?&?&Hbc). repeat split; [congruence|congruence|].
    by rewrite Hab.
Qed.

#[export] Instance report_equiv : Equiv report := fun a b =>
  r_totalItems a = r_totalItems b /\ r_totalCompleted a = r_totalCompleted b /\
  Forall2 (≡) (r_percents a) (r_percents b) /\ r_overall a == r_overall b.

(** Two completion maps are equivalent when they check the same ids:
    an absent key and a [false] entry are the same to the program. *)
Definition checks_equiv (m1 m2 : gmap string bool) : Prop :=
  forall id, is_checked m1 id = is_checked m2 id.

(** States that check the same ids: the relation computeScores
    respects (it never reads [notes]). *)
Definition same_checks : relation state := fun s1 s2 => checks_equiv (checks s1) (checks s2).

#[export] Instance same_checks_equivalence : Equivalence same_checks.
Proof.
  split.
  - intros s id. done.
  - intros s1 s2 H id. by rewrite H.
  - intros s1 s2 s3 H1 H2 id. by rewrite H1, H2.
Qed.

(** ** The counting loop *)

Lemma comp_count_spec cks cat : comp_count cks cat = completed_in cks cat.
Proof.
  unfold comp_count, completed_in. rewrite fold_left_add_shift, sum_list_with_indicator.
  done.
Qed.

Lemma completed_in_le cks cat : (completed_in cks cat <= length (Category.items cat))%nat.
Proof. apply length_filter. Qed.

#[export] Hint Resolve completed_in_le : audit.

Lemma sum_completed_le cks cats :
  (sum_list_with (completed_in cks) cats <=
   sum_list_with (fun c => length (Category.items c)) cats)%nat.
Proof.
  induction cats as [|c cats IH]; simpl; [lia|]. pose proof (completed_in_le cks c). lia.
Qed.

(** ** The [forEach] of computeScores *)

Section Tally.
Context (cks : gmap string bool).

Lemma tally_sums cats a :
  t_items (fold_left (tally_category cks) cats a) =
    (t_items a + sum_list_with (fun c => length (Category.items c)) cats)%nat /\
  t_completed_sum (fold_left (tally_category cks) cats a) =
    (t_completed_sum a + sum_list_with (completed_in cks) cats)%nat.
Proof.
  revert a; induction cats as [|c cats IH]; intros a; simpl; [lia|].
  destruct (IH (tally_category cks a c)) as [-> ->]. simpl.
  rewrite comp_count_spec. lia.
Qed.

(** A key that no later category writes keeps its value. *)
Lemma tally_lookup_other cats a k :
  k ∉ category_ids cats ->
  t_totals (fold_left (tally_category cks) cats a) !! k = t_totals a !! k /\
  t_completed (fold_left (tally_category cks) cats a) !! k = t_completed a !! k.
Proof.
  revert a; induction cats as [|c cats IH]; intros a Hk; simpl; [done|].
  unfold category_ids in Hk; simpl in Hk. apply not_elem_of_cons in Hk as [Hne Hk].
  destruct (IH (tally_category cks a c) Hk) as [-> ->]. simpl.
  rewrite !lookup_insert_ne; auto.
Qed.

(** With unique category ids, each category's entries are its own. *)
Lemma tally_lookup_own cats a c :
  NoDup (category_ids cats) -> c ∈ cats ->
  t_totals (fold_left (tally_category cks) cats a) !! Category.id c =
    Some (length (Category.items c)) /\
  t_completed (fold_left (tally_category cks) cats a) !! Category.id c =
    Some (completed_in cks c).
Proof.
  revert a; induction cats as [|c' cats IH]; intros a Hnd Hin; [set_solver|].
  unfold category_ids in Hnd; simpl in Hnd. apply NoDup_cons in Hnd as [Hfresh Hnd].
  simpl. apply elem_of_cons in Hin as [->|Hin]; [|by apply IH].
  destruct (tally_lookup_other cats (tally_category cks a c') (Category.id c') Hfresh)
    as [-> ->].
  simpl. rewrite !lookup_insert_eq, comp_count_spec. done.
Qed.
End Tally.

Lemma category_pct_own tot comp cat cks :
  tot !! Category.id cat = Some (length (Category.items cat)) ->
  comp !! Category.id cat = Some (completed_in cks cat) ->
  category_pct tot comp cat ≡ mkCatPct (Category.id cat) (Category.title cat) (spec_pct cks cat).
Proof.
  intros Ht Hc. unfold category_pct, spec_pct. rewrite Ht, Hc.
  repeat split; simpl. destruct (Category.items cat); simpl; repeat case_decide;
    try lia; reflexivity.
Qed.

(** ** What every entry of the tables satisfies *)

(** [tally_pairs P a]: every key of [totals] has an entry in
    [completed], and the two numbers are related by [P]. *)
Definition tally_pairs (P : nat -> nat -> Prop) (a : tally) : Prop :=
  forall k t, t_totals a !! k = Some t -> exists n, t_completed a !! k = Some n /\ P t n.

Section TallyInvariant.
Context (cks : gmap string bool) (P : nat -> nat -> Prop).

(** The [forEach] body preserves [tally_pairs P] when the category it
    processes satisfies [P]. *)
Lemma tally_category_pairs a c :
  P (length (Category.items c)) (completed_in cks c) ->
  tally_pairs P a -> tally_pairs P (tally_category cks a c).
Proof.
  intros Hc Ha k t. simpl. rewrite lookup_insert. case_decide as Hk.
  - intros [= <-]. subst k. rewrite lookup_insert_eq, comp_count_spec. eauto.
  - intros Ht. rewrite lookup_insert_ne; [|done]. by apply Ha.
Qed.

Lemma tally_fold_pairs cats a :
  (forall c, c ∈ cats -> P (length (Category.items c)) (completed_in cks c)) ->
  tally_pairs P a -> tally_pairs P (fold_left (tally_category cks) cats a).
Proof.
  revert a; induction cats as [|c cats IH]; intros a Hall Ha; simpl; [done|].
  apply IH; [intros; apply Hall; by right|].
  apply tally_category_pairs; [apply Hall; left|done].
Qed.

(** Every category of the loop leaves a key in [totals]. *)
Lemma tally_fold_keys cats a c :
  c ∈ cats -> is_Some (t_totals (fold_left (tally_category cks) cats a) !! Category.id c).
Proof.
  induction cats as [|c' cats IH] in a, c |- *; intros Hin; [set_solver|]. simpl.
  destruct (decide (Category.id c ∈ category_ids cats)) as [Hk|Hk].
  - unfold category_ids in Hk. apply list_elem_of_In, in_map_iff in Hk as (c''&Heq&Hc'').
    rewrite <- Heq. apply IH. by apply list_elem_of_In.
  - rewrite (proj1 (tally_lookup_other cks cats _ _ Hk)).
    apply elem_of_cons in Hin as [->|Hin].
    + simpl. rewrite lookup_insert_eq. eauto.
    + exfalso. apply Hk. unfold category_ids. apply list_elem_of_In, in_map.
      by apply list_elem_of_In.
Qed.

(** So the percentage of a category of the loop comes from a pair
    [(t, n)] that satisfies [P]. *)
Lemma category_pct_from_pair cats c :
  (forall c', c' ∈ cats -> P (length (Category.items c')) (completed_in cks c')) ->
  c ∈ cats ->
  let T := tally_all cats cks in
  exists t n, P t n /\
    cp_pct (category_pct (t_totals T) (t_completed T) c) =
      if decide (t = 0%nat) then 0 else ratio_pct n t.
Proof.
  intros Hall Hin T. destruct (tally_fold_keys cats empty_tally c Hin) as [t Ht].
  destruct (tally_fold_pairs cats empty_tally Hall (fun k t H => ltac:(done)) _ _ Ht)
    as (n & Hn & HP).
  exists t, n. split; [done|]. unfold category_pct, T, tally_all. simpl.
  rewrite Ht, Hn. done.
Qed.
End TallyInvariant.

(** ** The mean *)

#[export] Instance mean_pct_proper : Proper (Forall2 (≡) ==> Qeq) mean_pct.
Proof.
  intros l1 l2 H. unfold mean_pct. rewrite (Forall2_length _ _ _ H).
  destruct (length l2); [reflexivity|].
  assert (Hq : Qlist_eq (map cp_pct l1) (map cp_pct l2)).
  { induction H as [|a b l1 l2 (_&_&Hab) _ IH]; constructor; done. }
  rewrite Hq. reflexivity.
Qed.

Lemma mean_pct_between (cps : list cat_pct) (lo hi : Q) :
  lo <= 0 <= hi \/ cps <> [] ->
  Forall (fun cp => lo <= cp_pct cp <= hi) cps -> lo <= mean_pct cps <= hi.
Proof.
  intros Hlo Hall. unfold mean_pct. destruct (length cps) eqn:Hlen.
  - destruct Hlo as [?|Hne]; [done|]. by destruct cps.
  - rewrite <- Hlen, <- (length_map cp_pct cps). apply mean_bounds.
    + by destruct cps.
    + by apply Forall_map.
Qed.

Lemma categoryPercents_elem cats st cp :
  cp ∈ categoryPercents (computeScores cats st) ->
  exists c, c ∈ cats /\
    cp = category_pct (t_totals (tally_all cats (checks st)))
                      (t_completed (tally_all cats (checks st))) c.
Proof.
  simpl. intros Hin. apply list_elem_of_In, in_map_iff in Hin as (c & <- & Hc).
  exists c. split; [by apply list_elem_of_In|done].
Qed.

(** ** Properties of computeScores *)

(** A category's percentage read back from the pair [(t, n)] it was
    computed from: 0, or [n / t * 100]. *)
Lemma pct_of_pair_bounds (t n : nat) :
  (n <= t)%nat -> 0 <= (if decide (t = 0%nat) then 0 else ratio_pct n t) <= 100.
Proof.
  intros Hle. case_decide; [split; discriminate|].
  split; [apply ratio_pct_nonneg|by apply ratio_pct_le_100].
Qed.

(** Entry by entry, the percentages read back from the tables are the
    spec's when category ids are unique. *)
Lemma categoryPercents_refine cats st :
  NoDup (category_ids cats) ->
  Forall2 (≡) (categoryPercents (computeScores cats st)) (spec_percents cats (checks st)).
Proof.
  intros Hnd. apply Forall2_map_same. intros c Hc.
  destruct (tally_lookup_own (checks st) cats empty_tally c Hnd Hc) as [Ht Hn].
  by apply category_pct_own.
Qed.


Lemma computeScores_sums cats st :
  totalItems (computeScores cats st) = sum_list_with (fun c => length (Category.items c)) cats /\
  totalCompleted (computeScores cats st) = sum_list_with (completed_in (checks st)) cats.
Proof.
  simpl. unfold tally_all. destruct (tally_sums (checks st) cats empty_tally) as [-> ->].
  done.
Qed.

(** C8 (bounds).  [totalItems] is the number of items of the catalog
    and [totalCompleted] the number of checked ones, so
    [totalCompleted <= totalItems] always. *)
Theorem computeScores_counts cats st :
  totalItems (computeScores cats st) = sum_list_with (fun c => length (Category.items c)) cats /\
  totalCompleted (computeScores cats st) = sum_list_with (completed_in (checks st)) cats /\
  (totalCompleted (computeScores cats st) <= totalItems (computeScores cats st))%nat.
Proof.
  destruct (computeScores_sums cats st) as [-> ->]. split; [done|split; [done|]].
  apply sum_completed_le.
Qed.

Lemma categoryPercents_bounds cats st :
  Forall (fun cp => 0 <= cp_pct cp <= 100) (categoryPercents (computeScores cats st)).
Proof.
  apply Forall_forall. intros cp Hcp.
  destruct (categoryPercents_elem cats st cp Hcp) as (c & Hc & ->).
  destruct (category_pct_from_pair (checks st) (fun t n => n <= t)%nat cats c)
    as (t & n & Hle & ->); auto with audit.
  by apply pct_of_pair_bounds.
Qed.

(** C4 (bounds).  For every catalog and state, every category
    percentage and the overall score lie in [[0, 100]]. *)
Theorem computeScores_bounds cats st :
  Forall (fun cp => 0 <= cp_pct cp <= 100) (categoryPercents (computeScores cats st)) /\
  0 <= overall (computeScores cats st) <= 100.
Proof.
  pose proof (categoryPercents_bounds cats st) as Hall.
  split; [done|]. apply mean_pct_between; [left; split; discriminate|done].
Qed.

(** C1 (refinement).  When category ids are unique, computeScores
    implements the spec's report: the catalog-wide counts, the
    per-category percentages in catalog order (checked items of the
    category over its item count, times 100, 0 for an empty category)
    and their mean, although the code goes through tables keyed by
    category id. *)
Theorem computeScores_refines_spec cats st :
  NoDup (category_ids cats) ->
  report_of (computeScores cats st) ≡ spec_report cats (checks st).
Proof.
  intros Hnd. pose proof (categoryPercents_refine cats st Hnd) as Hp.
  destruct (computeScores_sums cats st) as [Hi Hc].
  split; [done|split; [done|split; [done|]]]. simpl. rewrite Hp.
  unfold mean_pct, spec_percents. rewrite map_map, length_map. simpl.
  destruct cats; reflexivity.
Qed.

(** C16 (functional).  When every item of a catalog whose categories
    are all non-empty is checked, every category scores 100 and so
    does the overall score (for a non-empty catalog). *)
Theorem computeScores_all_checked cats st :
  (forall c, c ∈ cats -> Category.items c <> []) ->
  (forall id, id ∈ item_ids cats -> is_checked (checks st) id = true) ->
  Forall (fun cp => cp_pct cp == 100) (categoryPercents (computeScores cats st)) /\
  (cats <> [] -> overall (computeScores cats st) == 100).
Proof.
  intros Hne Hchk.
  assert (Hfull : forall c, c ∈ cats ->
            completed_in (checks st) c = length (Category.items c) /\ Category.items c <> []).
  { intros c Hc. split; [|by apply Hne]. apply filter_length_le_all, Forall_forall.
    intros it Hit. apply Hchk. by eapply item_in_ids. }
  assert (Hall : Forall (fun cp => 100 <= cp_pct cp <= 100)
                        (categoryPercents (computeScores cats st))).
  { apply Forall_forall. intros cp Hcp.
    destruct (categoryPercents_elem cats st cp Hcp) as (c & Hc & ->).
    destruct (category_pct_from_pair (checks st)
                (fun t n => n = t /\ t <> 0%nat) cats c) as (t & n & [-> Ht] & ->).
    - intros c' Hc'. destruct (Hfull c' Hc') as [-> Hn]. split; [done|].
      by destruct (Category.items c').
    - done.
    - rewrite decide_False, ratio_pct_full by lia. split; apply Qle_refl. }
  split.
  - eapply Forall_impl; [exact Hall|]. intros cp [H1 H2]. by apply Qle_antisym.
  - intros Hcats.
    destruct (mean_pct_between (categoryPercents (computeScores cats st)) 100 100)
      as [H1 H2]; [right; simpl; by destruct cats|done|].
    by apply Qle_antisym.
Qed.

(** C17 (functional).  When no item of the catalog is checked (the
    initial state, or after clearAll), every category scores 0 and so
    does the overall score, for every catalog. *)
Theorem computeScores_none_checked cats st :
  (forall id, id ∈ item_ids cats -> is_checked (checks st) id = false) ->
  Forall (fun cp => cp_pct cp == 0) (categoryPercents (computeScores cats st)) /\
  overall (computeScores cats st) == 0.
Proof.
  intros Hchk.
  assert (Hall : Forall (fun cp => 0 <= cp_pct cp <= 0)
                        (categoryPercents (computeScores cats st))).
  { apply Forall_forall. intros cp Hcp.
    destruct (categoryPercents_elem cats st cp Hcp) as (c & Hc & ->).
    destruct (category_pct_from_pair (checks st) (fun t n => n = 0%nat) cats c)
      as (t & n & -> & ->).
    - intros c' Hc'. unfold completed_in. rewrite filter_nil_none; [done|].
      apply Forall_forall. intros it Hit. rewrite (Hchk (Item.id it)); [done|].
      by eapply item_in_ids.
    - done.
    - case_decide; [|rewrite ratio_pct_zero]; split; apply Qle_refl. }
  split.
  - eapply Forall_impl; [exact Hall|]. intros cp [H1 H2]. by apply Qle_antisym.
  - destruct (mean_pct_between (categoryPercents (computeScores cats st)) 0 0)
      as [H1 H2]; [left; split; apply Qle_refl|done|].
    by apply Qle_antisym.
Qed.

Lemma state_eq s1 s2 : checks s1 = checks s2 -> notes s1 = notes s2 -> s1 = s2.
Proof. destruct s1, s2; simpl; intros -> ->; done. Qed.

(** ** Equivalent states have the same scores *)

Lemma comp_count_ext m1 m2 c : checks_equiv m1 m2 -> comp_count m1 c = comp_count m2 c.
Proof.
  intros H. rewrite !comp_count_spec. unfold completed_in. f_equal.
  apply list_filter_iff. intros it. by rewrite H.
Qed.

Lemma tally_fold_ext m1 m2 cats a :
  checks_equiv m1 m2 ->
  fold_left (tally_category m1) cats a = fold_left (tally_category m2) cats a.
Proof.
  intros H. revert a; induction cats as [|c cats IH]; intros a; simpl; [done|].
  replace (tally_category m1 a c) with (tally_category m2 a c); [apply IH|].
  unfold tally_category. by rewrite (comp_count_ext m1 m2 c H).
Qed.

(** computeScores reads the state only through [is_checked]. *)
#[export] Instance computeScores_proper cats : Proper (same_checks ==> (=)) (computeScores cats).
Proof.
  intros s1 s2 H. unfold computeScores, tally_all.
  by rewrite (tally_fold_ext (checks s1) (checks s2) cats empty_tally H).
Qed.

(** ** The mutations *)

Lemma clear_checks_loop_lookup keys m k :
  clear_checks_loop keys m !! k = if decide (k ∈ keys) then Some false else m !! k.
Proof.
  unfold clear_checks_loop. revert m.
  induction keys as [|k' keys IH]; intros m; cbn [fold_left]; [case_decide; set_solver|].
  rewrite IH, lookup_insert. repeat case_decide; set_solver.
Qed.

(** The loop of clearAll maps every present key to [false]. *)
Lemma clear_checks_fmap st : checks (clear_checks st) = (fun _ => false) <$> checks st.
Proof.
  apply map_eq. intros k. simpl. rewrite clear_checks_loop_lookup, lookup_fmap.
  case_decide as Hk; apply elem_of_map_keys in Hk || rewrite elem_of_map_keys in Hk.
  - by destruct Hk as [v ->].
  - destruct (checks st !! k); [exfalso; by apply Hk|done].
Qed.

Lemma is_checked_fmap_false (m : gmap string bool) id :
  is_checked ((fun _ => false) <$> m) id = false.
Proof. unfold is_checked. rewrite lookup_fmap. by destruct (m !! id). Qed.

Lemma is_checked_set_check id b st id' :
  is_checked (checks (set_check id b st)) id' =
    if decide (id = id') then b else is_checked (checks st) id'.
Proof.
  unfold is_checked. simpl. rewrite lookup_insert. case_decide; [by destruct b|done].
Qed.

(** C7 (functional).  clearAll unchecks every item and leaves the notes
    as they were: after it no id is checked, the set of keys of
    [state.checks] is unchanged (the loop only overwrites the keys
    present), and [state.notes] is untouched. *)
Theorem clear_checks_spec st :
  (forall id, is_checked (checks (clear_checks st)) id = false) /\
  dom (checks (clear_checks st)) = dom (checks st) /\
  notes (clear_checks st) = notes st.
Proof.
  rewrite clear_checks_fmap. split; [|split; [|done]].
  - intros id. apply is_checked_fmap_false.
  - apply dom_fmap_L.
Qed.


(** C28 (functional).  After clearAll the score report is exactly the
    report of the initial, empty state, whatever was checked before. *)
Theorem computeScores_after_clear cats st :
  computeScores cats (clear_checks st) = computeScores cats initial_state.
Proof.
  apply computeScores_proper. intros id.
  rewrite clear_checks_fmap, is_checked_fmap_false. done.
Qed.

(** ** Witnesses *)

Lemma computeScores_refines_spec_witness :
  NoDup (category_ids categories) /\
  report_of (computeScores categories sample_state) ≡ spec_report categories (checks sample_state).
Proof. split; [vm_decide|apply computeScores_refines_spec; vm_decide]. Defined.


Lemma computeScores_all_checked_witness :
  (forall c, c ∈ categories -> Category.items c <> []) /\
  (forall id, id ∈ item_ids categories ->
     is_checked (checks (all_checked_state categories)) id = true) /\
  overall (computeScores categories (all_checked_state categories)) == 100.
Proof.
  assert (H1 : forall c, c ∈ categories -> Category.items c <> [])
    by (apply Forall_forall; vm_decide).
  assert (H2 : forall id, id ∈ item_ids categories ->
                 is_checked (checks (all_checked_state categories)) id = true)
    by (apply Forall_forall; vm_decide).
  split; [exact H1|split; [exact H2|]].
  apply (computeScores_all_checked categories _ H1 H2). discriminate.
Defined.

Lemma computeScores_none_checked_witness :
  (forall id, id ∈ item_ids categories -> is_checked (checks initial_state) id = false) /\
  overall (computeScores categories initial_state) == 0.
Proof.
  assert (H : forall id, id ∈ item_ids categories -> is_checked (checks initial_state) id = false)
    by (intros id _; reflexivity).
  split; [exact H|]. apply (computeScores_none_checked categories initial_state H).
Defined.

(** ** The mutations refine operations on the set of checked ids *)

Lemma elem_of_abs_checked cks id : id ∈ abs_checked cks <-> is_checked cks id = true.
Proof.
  unfold abs_checked, is_checked. rewrite elem_of_dom, map_lookup_filter.
  destruct (cks !! id) as [[]|]; simpl; split; try done; intros [? H]; discriminate H.
Qed.

(** C10 (refinement).  The writes to [state.checks] implement the
    spec's operations on the set of completed items: checking an item
    adds it, unchecking removes it, clearAll empties the set, and
    editing a note leaves it unchanged. *)
Theorem mutations_refine_set st id b cid t :
  abs_checked (checks (set_check id b st)) =
    (if b then {[id]} ∪ abs_checked (checks st) else abs_checked (checks st) ∖ {[id]}) /\
  abs_checked (checks (clear_checks st)) = ∅ /\
  abs_checked (checks (set_note cid t st)) = abs_checked (checks st).
Proof.
  split; [|split; [|done]].
  - apply set_eq. intros k. rewrite elem_of_abs_checked, is_checked_set_check.
    destruct b; case_decide; subst; rewrite ?elem_of_union, ?elem_of_difference,
      ?elem_of_singleton, ?elem_of_abs_checked; naive_solver.
  - apply set_eq. intros k. rewrite elem_of_abs_checked, clear_checks_fmap, is_checked_fmap_false.
    set_solver.
Qed.
