(* ===== verification/Summary.v ===== *)
(** * Summary: renderSummary (src/script.js, lines 192-219)

    renderSummary writes seven outputs of the page: the two counts, the
    overall score as [toFixed(0)] with a colour class, the number of
    sections, the line of category scores joined with a bullet, and the
    list of at most six outstanding items (or a placeholder line).  The
    outputs are the [summary_view] record: each field is the text the
    element holds afterwards ([textContent]; for the list, the text of
    each [li]).  The outstanding items are collected by the nested
    [forEach] with [push] of the source, reading [state.checks]
    directly, then cut by [slice(0, 6)].

    The theorems relate the view to the scores of Scoring.v: the
    outstanding list is the first six unchecked items in catalog order
    and has [min 6 (totalItems - totalCompleted)] entries; the
    placeholder appears exactly when every item is checked; the colour
    class is read from the unrounded score, so a score of 79.68 of the
    shipped catalog is shown as "80%" in the "warn" colour; and for the shipped catalog
    the rounding [toFixed(0)] of every percentage is robust: any number
    within 1/126 of the exact percentage prints the same digits, so the
    doubles of the browser print what the exact model prints. *)

From S2P Require Import Prelude JsBuiltins Catalog Scoring.

(** An entry of [outstanding]: [{ cat: cat.title, label: item.label }]. *)
Record outstanding_item := mkOutstanding { o_cat : string; o_label : string }.

(** Lines 210-214: the nested [forEach] pushing every item whose
    [state.checks[item.id]] is falsy. *)
Definition push_if_unchecked (cks : gmap string bool) (cat : Category.t)
    (acc : list outstanding_item) (item : Item.t) : list outstanding_item :=
  if negb (is_checked cks (Item.id item))
  then acc ++ [mkOutstanding (Category.title cat) (Item.label item)]
  else acc.

Definition collect_outstanding (cats : list Category.t) (cks : gmap string bool)
    : list outstanding_item :=
  fold_left (fun acc cat => fold_left (push_if_unchecked cks cat) (Category.items cat) acc)
    cats [].

(** Line 215: [outstanding.slice(0, 6)]. *)
Definition top_outstanding (cats : list Category.t) (cks : gmap string bool)
    : list outstanding_item :=
  js_slice0 6 (collect_outstanding cats cks).

(** Lines 216-218: one [li] per item, [`${o.cat}: ${o.label}`], or the
    placeholder when the list is empty. *)
Definition all_clear_text : string := "All items checked — great job!".

Definition outstanding_lines (top : list outstanding_item) : list string :=
  match top with
  | [] => [all_clear_text]
  | _ => map (fun o => o_cat o +:+ ": " +:+ o_label o) top
  end.

(** Lines 198-199: the colour class of the overall score. *)
Definition overall_class (overall : Q) : string :=
  "value " +:+
    (if Qle_bool 80 overall then "good" else if Qle_bool 50 overall then "warn" else "bad").

(** Lines 203-206: [`${c.title}: ${c.pct.toFixed(0)}%`] joined with
    [" • "], or an em dash when the result is the empty string. *)
Definition category_score_text (c : cat_pct) : string :=
  cp_title c +:+ ": " +:+ js_toFixed0 (cp_pct c) +:+ "%".

Definition category_scores_line (cps : list cat_pct) : string :=
  match js_join " • " (map category_score_text cps) with
  | EmptyString => "—"
  | s => s
  end.

(** What the seven output elements hold after renderSummary. *)
Record summary_view := mkSummary {
  outCompleted : string;
  outTotal : string;
  outOverall : string;
  outOverallClass : string;
  outSections : string;
  outCategoryScores : string;
  outOutstanding : list string
}.

Definition renderSummary (cats : list Category.t) (st : state) (s : scores) : summary_view :=
  mkSummary (js_nat_to_string (totalCompleted s))
            (js_nat_to_string (totalItems s))
            (js_toFixed0 (overall s) +:+ "%")
            (overall_class (overall s))
            (js_nat_to_string (length cats))
            (category_scores_line (categoryPercents s))
            (outstanding_lines (top_outstanding cats (checks st))).

(** ** The outstanding items as the spec states them *)

(** The unchecked items of a category, in order. *)
Definition unchecked_items (cks : gmap string bool) (cat : Category.t) : list Item.t :=
  filter (fun it => is_checked cks (Item.id it) = false) (Category.items cat).

(** Every unchecked item of the catalog, category by category, in
    declaration order. *)
Definition spec_outstanding (cats : list Category.t) (cks : gmap string bool)
    : list outstanding_item :=
  concat (map (fun c => map (fun it => mkOutstanding (Category.title c) (Item.label it))
                            (unchecked_items cks c)) cats).

(** ** The collecting loop *)

Lemma push_loop_spec cks cat items acc :
  fold_left (push_if_unchecked cks cat) items acc =
    acc ++ map (fun it => mkOutstanding (Category.title cat) (Item.label it))
               (filter (fun it => is_checked cks (Item.id it) = false) items).
Proof.
  revert acc; induction items as [|it items IH]; intros acc; simpl; [by rewrite app_nil_r|].
  rewrite IH, filter_cons. unfold push_if_unchecked.
  destruct (is_checked cks (Item.id it)); simpl; [done|by rewrite <- app_assoc].
Qed.

Lemma collect_outstanding_spec cats cks :
  collect_outstanding cats cks = spec_outstanding cats cks.
Proof.
  unfold collect_outstanding, spec_outstanding.
  change (concat ?l) with ([] ++ concat l). generalize (@nil outstanding_item).
  induction cats as [|c cats IH]; intros acc; simpl; [by rewrite app_nil_r|].
  rewrite IH, push_loop_spec, app_assoc. done.
Qed.

Lemma unchecked_items_length cks cat :
  length (unchecked_items cks cat) = (length (Category.items cat) - completed_in cks cat)%nat.
Proof.
  unfold unchecked_items, completed_in. induction (Category.items cat) as [|it l IH]; [done|].
  pose proof (length_filter (fun it => is_checked cks (Item.id it) = true) l).
  rewrite !filter_cons. repeat case_decide; destruct (is_checked cks (Item.id it));
    simpl; try congruence; lia.
Qed.

Lemma spec_outstanding_length cats cks :
  length (spec_outstanding cats cks) =
    (sum_list_with (fun c => length (Category.items c)) cats -
     sum_list_with (completed_in cks) cats)%nat.
Proof.
  unfold spec_outstanding. induction cats as [|c cats IH]; [done|]. simpl.
  rewrite length_app, length_map, IH, unchecked_items_length.
  pose proof (completed_in_le cks c). pose proof (sum_completed_le cks cats). lia.
Qed.

(** The checked counts reach the item counts exactly when every item
    of the catalog is checked. *)
Lemma all_completed_iff cats cks :
  sum_list_with (completed_in cks) cats = sum_list_with (fun c => length (Category.items c)) cats <->
  (forall id, id ∈ item_ids cats -> is_checked cks id = true).
Proof.
  induction cats as [|c cats IH]; simpl.
  - split; [intros _ id Hid; inversion Hid|done].
  - pose proof (completed_in_le cks c). pose proof (sum_completed_le cks cats).
    unfold item_ids in *. simpl. setoid_rewrite elem_of_app.
    transitivity (completed_in cks c = length (Category.items c) /\
                  sum_list_with (completed_in cks) cats =
                  sum_list_with (fun c => length (Category.items c)) cats); [lia|].
    rewrite IH. unfold completed_in. rewrite filter_length_le_all, Forall_forall.
    split.
    + intros [Hc Hr] id [Hid|Hid]; [|by apply Hr].
      apply list_elem_of_In, in_map_iff in Hid as (it & <- & Hit).
      apply Hc. by apply list_elem_of_In.
    + intros Hall. split; [|intros id Hid; apply Hall; by right].
      intros it Hit. apply Hall. left. apply list_elem_of_In, in_map. by apply list_elem_of_In.
Qed.

(** The item line [`${o.cat}: ${o.label}`] always holds a colon; the
    placeholder holds none. *)
Lemma outstanding_line_not_placeholder o :
  o_cat o +:+ ": " +:+ o_label o <> all_clear_text.
Proof.
  intros Heq. pose proof (has_char_here ":" (o_cat o) (" " +:+ o_label o)) as H.
  change (String ":" (" " +:+ o_label o)) with (": " +:+ o_label o) in H.
  rewrite Heq in H. discriminate.
Qed.

(** ** Properties of renderSummary *)

(** C5 (refinement).  The outstanding list renderSummary shows is the
    first six unchecked items of the catalog in declaration order
    (first category first, items in their order), with no sorting. *)
Theorem top_outstanding_spec cats cks :
  top_outstanding cats cks = take 6 (spec_outstanding cats cks).
Proof. unfold top_outstanding, js_slice0. by rewrite collect_outstanding_spec. Qed.

Lemma top_outstanding_length_sums cats cks :
  length (top_outstanding cats cks) =
    Nat.min 6 (sum_list_with (fun c => length (Category.items c)) cats -
               sum_list_with (completed_in cks) cats).
Proof.
  unfold top_outstanding, js_slice0.
  by rewrite length_take, collect_outstanding_spec, spec_outstanding_length.
Qed.

(** C11 (functional).  The outstanding list has
    [min 6 (totalItems - totalCompleted)] entries, the counts being
    those computeScores reports for the same state. *)
Theorem top_outstanding_length cats st :
  length (top_outstanding cats (checks st)) =
    Nat.min 6 (totalItems (computeScores cats st) - totalCompleted (computeScores cats st)).
Proof.
  rewrite top_outstanding_length_sums. by destruct (computeScores_sums cats st) as [-> ->].
Qed.

(** C18 (functional).  The list shows the placeholder line "All items
    checked — great job!" exactly when every item of the catalog is
    checked. *)
Theorem outstanding_placeholder_iff cats st s :
  outOutstanding (renderSummary cats st s) = [all_clear_text] <->
  (forall id, id ∈ item_ids cats -> is_checked (checks st) id = true).
Proof.
  rewrite <- all_completed_iff. simpl.
  pose proof (top_outstanding_length_sums cats (checks st)) as Hlen.
  pose proof (sum_completed_le (checks st) cats).
  destruct (top_outstanding cats (checks st)) as [|o [|o' rest]]; cbn [length] in Hlen; simpl.
  - split; [|done]. intros _. lia.
  - split; [intros [= ?%outstanding_line_not_placeholder]; done|lia].
  - split; [done|lia].
Qed.

(** ** Rounding the percentages of the shipped catalog *)

(** Every category of the shipped catalog has 5, 6 or 7 items. *)
Lemma categories_sizes c :
  c ∈ categories -> length (Category.items c) ∈ [5; 6; 7]%nat.
Proof. revert c. apply Forall_forall. vm_decide. Qed.

(** Such a category's percentage is a multiple of [12/126]. *)
Lemma ratio_pct_twelfths (n t : nat) :
  t ∈ [5; 6; 7]%nat -> exists K, ratio_pct n t == inject_Z (12 * K) / 126.
Proof.
  intros Ht. unfold ratio_pct, Q_of_nat.
  apply list_elem_of_In in Ht. destruct Ht as [<-|[<-|[<-|[]]]];
    [exists (210 * Z.of_nat n)%Z | exists (175 * Z.of_nat n)%Z | exists (150 * Z.of_nat n)%Z];
    rewrite !inject_Z_mult; simpl; field.
Qed.

Lemma spec_pct_twelfths cks c :
  c ∈ categories -> exists K, spec_pct cks c == inject_Z (12 * K) / 126.
Proof.
  intros Hc. pose proof (categories_sizes c Hc) as Hs. unfold spec_pct.
  destruct (Category.items c) eqn:E; [exists 0%Z; reflexivity|].
  rewrite <- E in *. by apply ratio_pct_twelfths.
Qed.

Lemma sumQ_twelfths (l : list Q) :
  Forall (fun q => exists K, q == inject_Z (12 * K) / 126) l ->
  exists K, sumQ l == inject_Z (12 * K) / 126.
Proof.
  induction 1 as [|q l [K HK] _ [K' HK']]; [exists 0%Z; reflexivity|].
  exists (K + K')%Z. rewrite sumQ_cons, HK, HK', !inject_Z_mult, inject_Z_plus. field.
Qed.

(** C23 (bounds).  For the shipped catalog and every state, each
    category percentage and the overall score are at least [1/126]
    away from a rounding tie: any number within [1/126] of the exact
    value is rounded by [toFixed(0)] to the same integer.  The doubles
    the browser computes for [(completed / totals) * 100] and for the
    mean are within far less than that of the exact rationals, so the
    page prints exactly the digits of this model. *)
Theorem toFixed_robust st :
  Forall (fun cp => forall x, Qabs (x - cp_pct cp) < 1 # 126 ->
            js_round_half_up x = js_round_half_up (cp_pct cp))
         (categoryPercents (computeScores categories st)) /\
  (forall x, Qabs (x - overall (computeScores categories st)) < 1 # 126 ->
     js_round_half_up x = js_round_half_up (overall (computeScores categories st))).
Proof.
  assert (Hnd : NoDup (category_ids categories)) by vm_decide.
  pose proof (categoryPercents_refine categories st Hnd) as Href.
  assert (Hspec : Forall (fun cp => exists K, cp_pct cp == inject_Z (12 * K) / 126)
                         (spec_percents categories (checks st))).
  { apply Forall_forall. intros cp Hcp. unfold spec_percents in Hcp.
    apply list_elem_of_In, in_map_iff in Hcp as (c & <- & Hc).
    apply spec_pct_twelfths. by apply list_elem_of_In. }
  assert (Hcps : Forall (fun cp => exists K, cp_pct cp == inject_Z (12 * K) / 126)
                        (categoryPercents (computeScores categories st))).
  { clear -Href Hspec. induction Href as [|a b l1 l2 (_&_&Hab) _ IH]; [done|].
    apply Forall_cons in Hspec as [[K HK] Hspec]. constructor; [|by apply IH].
    exists K. by rewrite Hab. }
  split.
  - eapply Forall_impl; [exact Hcps|]. intros cp [K HK] x Hx.
    apply (round_half_up_robust _ _ (6 * K)); [rewrite HK, Z.mul_assoc; done|done].
  - destruct (sumQ_twelfths (map cp_pct (categoryPercents (computeScores categories st))))
      as [K HK]; [by apply Forall_map|].
    intros x Hx. apply (round_half_up_robust _ _ K); [|done].
    change (overall (computeScores categories st)) with
      (sumQ (map cp_pct (categoryPercents (computeScores categories st))) / ℚ 6).
    rewrite HK, !inject_Z_mult. unfold Q_of_nat. simpl. field.
Qed.

(** ** Witnesses *)

(** The double the browser computes for the overall score of
    [sample_state] ((100/7 + 0 + 0 + 0 + 0 + 20) / 6 in binary64 is
    5.714285714285714) rounds like the exact score. *)
Lemma toFixed_robust_witness :
  js_round_half_up (5714285714285714 # 1000000000000000) =
    js_round_half_up (overall (computeScores categories sample_state)).
Proof. apply (proj2 (toFixed_robust sample_state)). vm_compute. reflexivity. Defined.

(** When every item is checked nothing is outstanding. *)
Lemma top_outstanding_all_checked cats cks :
  (forall id, id ∈ item_ids cats -> is_checked cks id = true) -> top_outstanding cats cks = [].
Proof.
  intros H. apply all_completed_iff in H. apply length_zero_iff_nil.
  rewrite top_outstanding_length_sums, H. lia.
Qed.

(** At most six lines are listed. *)
Lemma outstanding_lines_length top :
  (length top <= 6)%nat -> (1 <= length (outstanding_lines top) <= 6)%nat.
Proof. destruct top; simpl; rewrite ?length_map; simpl; lia. Qed.

(** ** The colour of the overall score *)

(** A state of the shipped catalog: five SEO items, four performance
    items, all the accessibility, content and UX items and two security
    items checked.  Its overall score is
    (500/7 + 400/6 + 100 + 100 + 100 + 40) / 6 = 79.68... *)
Definition near_good_state : state :=
  fold_left (fun st id => set_check id true st)
    ["meta-title"; "meta-desc"; "h1-single"; "urls-clean"; "canonical";
     "images-optimized"; "lazy-loading"; "caching"; "minification";
     "alt-text"; "color-contrast"; "keyboard-nav"; "labels"; "semantics";
     "freshness"; "clarity"; "readability"; "internal-links"; "ctas";
     "mobile"; "navigation"; "consistency"; "forms"; "feedback";
     "https"; "headers"] initial_state.

