(* ===== verification/Chart.v ===== *)
(** * Chart: drawChart (src/script.js, lines 221-259)

    drawChart maps the category percentages to the parts of an SVG bar
    chart on a fixed canvas ([w = 600], [h = 240], [pad = 32]): two
    axes, a dashed guide line at 50%, and for each category a bar, a
    label under it (the first word of the title) and its percentage
    above it.  The canvas is a record so that the geometry lemmas hold
    for every canvas; [chart_canvas] holds the constants of the source.
    The two colours come from CSS variables read with
    [getComputedStyle]; they are the section variables [grid_color] and
    [blue_color].  The model produces the parts as data ([svg_part]);
    the serialisation of a part to markup is not modelled.

    Coordinates are exact rationals.  For an empty list of categories
    the source computes [barW = Infinity] and [gap = NaN], but only
    inside the [forEach] over the bars, which then does nothing: the
    model (where a division by 0 gives 0) draws the same three lines.

    The theorems: the vertical mapping sends 0% to the baseline and
    100% to the top of the plot, bars of percentages in [[0, 100]] stay
    inside the plot area, bars are evenly spaced, centred in their
    slots and never overlap, and the guide line is at mid-height. *)

From S2P Require Import Prelude JsBuiltins Catalog Scoring.

(** The drawing surface: [const w = 600, h = 240, pad = 32] (line 224). *)
Record canvas := mkCanvas { cw : Q; ch : Q; cpad : Q }.

Definition chart_canvas : canvas := mkCanvas 600 240 32.

(** The parts pushed into [parts]. *)
Inductive svg_part :=
  | SvgLine (x1 y1 x2 y2 : Q) (stroke : string) (dasharray : option string)
  | SvgRect (x y width height : Q) (fill : string) (tooltip : string)
  | SvgText (x y : Q) (content : string).

(** A bar's rectangle. *)
Record rect := mkRect { rx : Q; ry : Q; rwidth : Q; rheight : Q }.

(** [b.title.split(" ")[0]]: [split] always returns at least one piece. *)
Definition first_word (s : string) : string :=
  match js_split " " s with
  | w :: _ => w
  | [] => ""
  end.

Section Geometry.
Context (cv : canvas).

(** Lines 228-233. *)
Definition maxY : Q := 100.

Definition bar_slot (n : nat) : Q := (cw cv - 2 * cpad cv) / ℚ n.

Definition barW (n : nat) : Q := (cw cv - 2 * cpad cv) / ℚ n * (7 # 10).

Definition gap (n : nat) : Q := ((cw cv - 2 * cpad cv) / ℚ n) - barW n.

Definition xMap (n i : nat) : Q := cpad cv + ℚ i * (barW n + gap n) + gap n / 2.

Definition yMap (v : Q) : Q := ch cv - cpad cv - (v / maxY) * (ch cv - 2 * cpad cv).

(** Lines 245-247: the bar of the [i]-th of [n] categories. *)
Definition bar_rect (n i : nat) (pct : Q) : rect :=
  let x := xMap n i in
  let y := yMap pct in
  mkRect x y (barW n) ((ch cv - cpad cv) - y).
End Geometry.

Section Draw.
Context (grid_color blue_color : string).

(** Lines 238-241: the two axes and the dashed 50% line. *)
Definition chart_axes (cv : canvas) : list svg_part :=
  [SvgLine (cpad cv) (ch cv - cpad cv) (cw cv - cpad cv) (ch cv - cpad cv) "#475569" None;
   SvgLine (cpad cv) (cpad cv) (cpad cv) (ch cv - cpad cv) "#475569" None;
   SvgLine (cpad cv) (yMap cv 50) (cw cv - cpad cv) (yMap cv 50) grid_color (Some "4 3")].

(** Lines 244-256: the body of [bars.forEach((b, i) => ...)]. *)
Definition bar_parts (cv : canvas) (n i : nat) (b : cat_pct) : list svg_part :=
  let r := bar_rect cv n i (cp_pct b) in
  [SvgRect (rx r) (ry r) (rwidth r) (rheight r) blue_color
     (cp_title b +:+ ": " +:+ js_toFixed0 (cp_pct b) +:+ "%");
   SvgText (rx r + rwidth r / 2) (ch cv - cpad cv + 14) (first_word (cp_title b));
   SvgText (rx r + rwidth r / 2) (ry r - 4) (js_toFixed0 (cp_pct b) +:+ "%")].

Definition drawChart_on (cv : canvas) (s : scores) : list svg_part :=
  let bars := categoryPercents s in
  chart_axes cv ++ concat (imap (bar_parts cv (length bars)) bars).

(** drawChart, on the canvas of the source. *)
Definition drawChart (s : scores) : list svg_part := drawChart_on chart_canvas s.
End Draw.

(** ** Geometry *)

Section Lemmas.
Context (cv : canvas).

(** A canvas whose padding leaves room to draw. *)
Definition valid_canvas : Prop := 2 * cpad cv < cw cv /\ 2 * cpad cv < ch cv /\ 0 <= cpad cv.

Lemma barW_slot n : barW cv n == bar_slot cv n * (7 # 10).
Proof. reflexivity. Qed.

Lemma gap_slot n : gap cv n == bar_slot cv n * (3 # 10).
Proof. unfold gap, barW, bar_slot. ring. Qed.

Lemma xMap_slot n i : xMap cv n i == cpad cv + (ℚ i + (3 # 20)) * bar_slot cv n.
Proof. unfold xMap. rewrite barW_slot, gap_slot. field. Qed.

Lemma slot_times_n n : (0 < n)%nat -> ℚ n * bar_slot cv n == cw cv - 2 * cpad cv.
Proof.
  intros Hn. unfold bar_slot. field. pose proof (Q_of_nat_pos n Hn) as H.
  intros E. rewrite E in H. discriminate.
Qed.

Lemma slot_pos n : (0 < n)%nat -> valid_canvas -> 0 < bar_slot cv n.
Proof.
  intros Hn (Hw & _ & _). unfold bar_slot. apply Qlt_shift_div_l; [by apply Q_of_nat_pos|].
  lra.
Qed.

Lemma bar_height n i pct :
  rheight (bar_rect cv n i pct) == pct / 100 * (ch cv - 2 * cpad cv).
Proof. unfold bar_rect, yMap, maxY. simpl. ring. Qed.

(** The bar of a percentage in [[0, 100]] stays in the plot area. *)
Lemma bar_rect_inside n i pct :
  valid_canvas -> (i < n)%nat -> 0 <= pct <= 100 ->
  let r := bar_rect cv n i pct in
  cpad cv <= rx r /\ rx r + rwidth r <= cw cv - cpad cv /\
  cpad cv <= ry r /\ ry r + rheight r == ch cv - cpad cv /\
  0 <= rheight r <= ch cv - 2 * cpad cv.
Proof.
  intros Hcv Hi Hp r. pose proof (slot_pos n ltac:(lia) Hcv) as Hs.
  pose proof (slot_times_n n ltac:(lia)) as Hn.
  assert (Hi' : ℚ i + 1 <= ℚ n).
  { change 1 with (ℚ 1). rewrite <- Q_of_nat_add. apply Q_of_nat_le. lia. }
  assert (Hle : (ℚ i + 1) * bar_slot cv n <= ℚ n * bar_slot cv n)
    by (apply Qmult_le_compat_r; lra).
  pose proof (Q_of_nat_nonneg i) as Hi0.
  assert (H0 : 0 <= ℚ i * bar_slot cv n) by (apply Qmult_le_0_compat; lra).
  destruct Hcv as (Hw & Hh & Hpad).
  assert (Hpct : 0 <= pct / 100 * (ch cv - 2 * cpad cv) <= ch cv - 2 * cpad cv).
  { split; [apply Qmult_le_0_compat; qlra|].
    rewrite <- (Qmult_1_l (ch cv - 2 * cpad cv)) at 2.
    apply Qmult_le_compat_r; qlra. }
  subst r. rewrite bar_height. unfold bar_rect. cbn [rx ry rwidth].
  rewrite xMap_slot, barW_slot. unfold yMap, maxY. qlra.
Qed.
End Lemmas.

(** ** Properties of drawChart *)

(** C24 (roundtrip).  The vertical mapping sends 0% to the baseline
    [h - pad] and 100% to the top of the plot [pad], so a 0% bar has
    height 0 and a 100% bar the full plot height; the 50% guide line is
    at mid-height; and on a canvas with a plot of non-zero height the
    percentage is recovered from the mapped coordinate. *)
Theorem yMap_roundtrip cv n i :
  yMap cv 0 == ch cv - cpad cv /\ yMap cv 100 == cpad cv /\
  rheight (bar_rect cv n i 0) == 0 /\
  rheight (bar_rect cv n i 100) == ch cv - 2 * cpad cv /\
  yMap cv 50 == ch cv / 2 /\
  (forall v, ~ ch cv - 2 * cpad cv == 0 ->
     (ch cv - cpad cv - yMap cv v) / (ch cv - 2 * cpad cv) * maxY == v).
Proof.
  rewrite !bar_height. unfold yMap, maxY.
  split; [qlra|split; [qlra|split; [qlra|split; [qlra|split; [qlra|]]]]].
  intros v Hne. field. done.
Qed.

Lemma bar_parts_rect cv b n i cp x y w h fill tip :
  SvgRect x y w h fill tip ∈ bar_parts b cv n i cp ->
  bar_rect cv n i (cp_pct cp) = mkRect x y w h.
Proof.
  unfold bar_parts. cbv zeta. set (r := bar_rect cv n i (cp_pct cp)). intros Hin.
  apply elem_of_cons in Hin as [Hin|Hin].
  - injection Hin as -> -> -> -> _ _. reflexivity.
  - apply elem_of_cons in Hin as [Hin|Hin]; [discriminate|].
    apply elem_of_cons in Hin as [Hin|Hin]; [discriminate|]. inversion Hin.
Qed.

(** C15 (safety).  For every catalog and every state, every bar that
    drawChart draws on the source's canvas lies inside the plot area:
    between the axes horizontally ([32 <= x], [x + width <= 568]), with
    its bottom on the baseline ([y + height = 208]) and its top at or
    below the top of the plot ([32 <= y]). *)
Theorem drawChart_bars_inside g b cats st x y w h fill tip :
  SvgRect x y w h fill tip ∈ drawChart g b (computeScores cats st) ->
  32 <= x /\ x + w <= 568 /\ 32 <= y /\ y + h == 208 /\ 0 <= h <= 176.
Proof.
  unfold drawChart, drawChart_on. intros Hin. apply elem_of_app in Hin as [Hin|Hin].
  { repeat (apply elem_of_cons in Hin as [Hin|Hin]; [discriminate Hin|]). inversion Hin. }
  apply elem_of_concat_imap in Hin as (i & cp & Hi & Hin).
  apply bar_parts_rect in Hin.
  pose proof (proj1 (Forall_lookup _ _) (categoryPercents_bounds cats st) i cp Hi) as Hp.
  apply lookup_lt_Some in Hi.
  destruct (bar_rect_inside chart_canvas _ i (cp_pct cp)
              ltac:(unfold valid_canvas; simpl; qlra) Hi Hp) as (H1 & H2 & H3 & H4 & H5).
  rewrite Hin in H1, H2, H3, H4, H5. simpl in *. qlra.
Qed.

(** C25 (safety).  On a valid canvas the bars are evenly spaced and
    never overlap: a later bar starts strictly after an earlier one
    ends, consecutive bars are one slot [(w - 2 pad) / n] apart, and
    each bar is centred in its slot. *)
Theorem bars_evenly_spaced cv n i j p q :
  valid_canvas cv -> (i < j)%nat -> (j < n)%nat ->
  rx (bar_rect cv n i p) + rwidth (bar_rect cv n i p) < rx (bar_rect cv n j q) /\
  rx (bar_rect cv n j q) - rx (bar_rect cv n i p) == (ℚ j - ℚ i) * bar_slot cv n /\
  rx (bar_rect cv n i p) + rwidth (bar_rect cv n i p) / 2 ==
    cpad cv + (ℚ i + (1 # 2)) * bar_slot cv n.
Proof.
  intros Hcv Hij Hjn. pose proof (slot_pos cv n ltac:(lia) Hcv) as Hs.
  unfold bar_rect. cbn [rx rwidth]. rewrite !xMap_slot, barW_slot.
  assert (Hji : ℚ i + 1 <= ℚ j).
  { change 1 with (ℚ 1). rewrite <- Q_of_nat_add. apply Q_of_nat_le. lia. }
  assert (Hle : (ℚ i + 1) * bar_slot cv n <= ℚ j * bar_slot cv n)
    by (apply Qmult_le_compat_r; lra).
  split; [|split].
  - nra.
  - ring.
  - field.
Qed.

Lemma bar_parts_length b cv n i cp : length (bar_parts b cv n i cp) = 3%nat.
Proof. reflexivity. Qed.


(** ** Witnesses *)

Lemma yMap_roundtrip_witness :
  yMap chart_canvas 50 == 120 /\
  (ch chart_canvas - cpad chart_canvas - yMap chart_canvas 37) /
    (ch chart_canvas - 2 * cpad chart_canvas) * maxY == 37.
Proof.
  destruct (yMap_roundtrip chart_canvas 6 0) as (_ & _ & _ & _ & H50 & Hv).
  split; [rewrite H50; reflexivity|apply Hv; vm_compute; discriminate].
Defined.

(** The first bar of [sample_state] (SEO Basics at 100/7 %). *)
Lemma drawChart_bars_inside_witness :
  let x := 706060800 # 15552000 in let y := 128000 # 700 in
  let w := 3752 # 60 in let h := 17600 # 700 in
  drawChart "grid" "blue" (computeScores categories sample_state) !! 3%nat =
    Some (SvgRect x y w h "blue" "SEO Basics: 14%") /\
  32 <= x /\ x + w <= 568 /\ 32 <= y /\ y + h == 208 /\ 0 <= h <= 176.
Proof.
  intros x y w h. assert (Hl : drawChart "grid" "blue" (computeScores categories sample_state)
                                 !! 3%nat = Some (SvgRect x y w h "blue" "SEO Basics: 14%"))
    by (vm_compute; reflexivity).
  split; [exact Hl|].
  apply (drawChart_bars_inside "grid" "blue" categories sample_state _ _ _ _ "blue"
           "SEO Basics: 14%").
  apply list_elem_of_lookup. by exists 3%nat.
Defined.

Lemma bars_evenly_spaced_witness :
  valid_canvas chart_canvas /\
  rx (bar_rect chart_canvas 6 0 (100 / 7)) + rwidth (bar_rect chart_canvas 6 0 (100 / 7)) <
    rx (bar_rect chart_canvas 6 1 0).
Proof.
  assert (Hv : valid_canvas chart_canvas) by (unfold valid_canvas; simpl; qlra).
  split; [exact Hv|].
  apply (bars_evenly_spaced chart_canvas 6 0 1 (100 / 7) 0 Hv); lia.
Defined.

