(* ===== verification/Export.v ===== *)
(** * Export: exportPDF (src/script.js, lines 289-321)

    exportPDF builds a jsPDF document from the text the summary
    elements display: it does not read the scores but the
    [textContent] of the output elements, splits the line of category
    scores on the bullet and trims each piece, and takes the text of
    each [li] of the outstanding list.  The document is modelled as the
    sequence of commands the code issues to jsPDF ([pdf_cmd]): font
    sizes, texts at [(x, y)] in millimetres (the default unit of
    jsPDF; the default page is A4, 210 x 297 mm) and the final save.
    jsPDF itself is not modelled: the commands are its interface.

    The theorems: the category lines of the PDF are exactly the
    per-category score texts of the summary (a split/join round trip,
    which holds because no title contains the bullet or surrounding
    white space); the counts printed are those of computeScores; every
    text of the report of the shipped catalog lies on the page; and two
    defects of the layout: the sixth category line is printed at the
    height of the "Outstanding Items:" heading, and when every item is
    checked the placeholder sentence is printed as an outstanding
    item. *)

From S2P Require Import Prelude JsBuiltins Catalog Scoring Summary.

(** The calls made on the jsPDF document. *)
Inductive pdf_cmd :=
  | SetFontSize (size : nat)
  | Text (s : string) (x y : nat)
  | Save (filename : string).

(** Lines 306-310: [textContent.split("•")], each piece trimmed, one
    line every 10 mm from y = 90. *)
Definition category_lines (v : summary_view) : list pdf_cmd :=
  imap (fun i s => Text (js_trim s) 20 (90 + i * 10)) (js_split "•" (outCategoryScores v)).

(** Lines 313-317: one line per [li], every 10 mm from y = 150. *)
Definition outstanding_pdf_lines (v : summary_view) : list pdf_cmd :=
  imap (fun i li => Text ("- " +:+ li) 20 (150 + i * 10)) (outOutstanding v).

Definition exportPDF (v : summary_view) : list pdf_cmd :=
  [SetFontSize 16;
   Text "Website Audit Checklist Report" 14 20;
   SetFontSize 12;
   Text "Summary:" 14 35;
   Text ("Completed: " +:+ outCompleted v +:+ " / " +:+ outTotal v) 14 45;
   Text ("Overall Score: " +:+ outOverall v) 14 55;
   Text ("Sections: " +:+ outSections v) 14 65;
   Text "Category Scores:" 14 80]
  ++ category_lines v
  ++ [Text "Outstanding Items:" 14 140]
  ++ outstanding_pdf_lines v
  ++ [Save "website-audit-report.pdf"].

(** The y coordinate of a command that prints text. *)
Definition text_y (c : pdf_cmd) : option nat :=
  match c with
  | Text _ _ y => Some y
  | _ => None
  end.

(** ** The category lines: a split/join round trip *)

(** The bullet U+2022 is three bytes in UTF-8, the first one 226; the
    separator of the summary line is the bullet padded with spaces. *)
Lemma split_bullet_join (l : list string) :
  l <> [] -> Forall (fun x => has_char "226" x = false) l ->
  map js_trim (js_split "•" (js_join " • " l)) = map js_trim l.
Proof.
  intros Hne Hl. destruct l as [|x l]; [done|]. apply Forall_cons in Hl as [Hx Hl].
  unfold js_split.
  change " • " with (" " +:+ String "226" (String "128" (String "162" "")) +:+ " ").
  change "•" with (String "226" (String "128" (String "162" ""))).
  rewrite split_join_padded by done. by apply pad_pieces_trim.
Qed.

Lemma category_score_text_no_bullet cp :
  has_char "226" (cp_title cp) = false -> has_char "226" (category_score_text cp) = false.
Proof.
  intros Ht. unfold category_score_text.
  rewrite !has_char_app, Ht, has_char_toFixed0 by (repeat constructor). done.
Qed.

Lemma category_score_text_trimmed cp :
  starts_nonspace (cp_title cp) = true -> js_trim (category_score_text cp) = category_score_text cp.
Proof.
  intros Ht. unfold category_score_text. apply js_trim_id.
  - rewrite !las_app. destruct (cp_title cp) as [|c t]; [done|].
    simpl in Ht |- *. apply negb_true_iff in Ht. by rewrite Ht.
  - rewrite !las_app, !app_assoc. change (list_ascii_of_string "%") with ["%"%char].
    by rewrite rev_unit.
Qed.

(** A joined list of category score texts is never the empty string
    (each text holds a colon), so the em dash never replaces it. *)
Lemma category_scores_line_join cps :
  cps <> [] -> category_scores_line cps = js_join " • " (map category_score_text cps).
Proof.
  intros Hne. unfold category_scores_line.
  destruct (js_join " • " (map category_score_text cps)) eqn:E; [|done].
  destruct cps as [|cp cps]; [done|]. exfalso.
  assert (Hcp : has_char ":" (category_score_text cp) = true)
    by exact (has_char_here ":" (cp_title cp) (" " +:+ js_toFixed0 (cp_pct cp) +:+ "%")).
  assert (Hc : has_char ":" (js_join " • " (map category_score_text (cp :: cps))) = true).
  { destruct cps as [|cp' cps]; [done|]. cbn [map]. by rewrite js_join_cons2, has_char_app, Hcp. }
  by rewrite E in Hc.
Qed.

(** With a non-empty catalog whose titles hold no bullet and do not
    start with white space, the PDF's category lines are the category
    score texts, in order, 10 mm apart from y = 90. *)
Lemma category_lines_of_scores cats st :
  cats <> [] ->
  Forall (fun c => has_char "226" (Category.title c) = false /\
                   starts_nonspace (Category.title c) = true) cats ->
  category_lines (renderSummary cats st (computeScores cats st)) =
    imap (fun i cp => Text (category_score_text cp) 20 (90 + i * 10))
         (categoryPercents (computeScores cats st)).
Proof.
  intros Hne Hcats. set (cps := categoryPercents (computeScores cats st)).
  assert (Hcps : Forall (fun cp => has_char "226" (cp_title cp) = false /\
                                   starts_nonspace (cp_title cp) = true) cps)
    by (apply Forall_map; done).
  assert (Hne' : cps <> []) by (subst cps; simpl; by destruct cats).
  unfold category_lines. simpl. fold cps.
  rewrite category_scores_line_join by done.
  rewrite (imap_map (fun i s => Text s 20 (90 + i * 10)) js_trim).
  rewrite split_bullet_join.
  2: { intros E. apply Hne'. by apply map_eq_nil in E. }
  2: { apply Forall_map. eapply Forall_impl; [exact Hcps|].
       intros cp [H _]. by apply category_score_text_no_bullet. }
  rewrite map_map, <- (imap_map (fun i s => Text s 20 (90 + i * 10))
                                 (fun cp => js_trim (category_score_text cp))).
  apply imap_ext. intros i cp Hi. f_equal. apply category_score_text_trimmed.
  apply list_elem_of_lookup_2 in Hi. by eapply Forall_forall in Hcps as [_ ?].
Qed.

(** ** Properties of exportPDF *)

(** The titles of the shipped catalog hold no bullet and no leading
    white space. *)
Lemma categories_titles_plain :
  Forall (fun c => has_char "226" (Category.title c) = false /\
                   starts_nonspace (Category.title c) = true) categories.
Proof. vm_decide. Qed.

(** C12 (roundtrip).  For the shipped catalog and every state, parsing
    the displayed category-score line back (split on the bullet, trim
    each piece) gives exactly the per-category texts
    ["<title>: <pct>%"] in catalog order: the PDF prints them one per
    line, 10 mm apart from y = 90. *)
Theorem export_category_lines st :
  category_lines (renderSummary categories st (computeScores categories st)) =
    imap (fun i cp => Text (category_score_text cp) 20 (90 + i * 10))
         (categoryPercents (computeScores categories st)).
Proof. apply category_lines_of_scores; [discriminate|apply categories_titles_plain]. Qed.

(** C13 (safety).  The PDF of the shipped catalog, for every state,
    collides two texts: the sixth category line ("Security: ...%") is
    printed at y = 140, the height of the "Outstanding Items:"
    heading. *)
Theorem export_sixth_line_overlaps_heading st :
  let out := exportPDF (renderSummary categories st (computeScores categories st)) in
  exists cp, categoryPercents (computeScores categories st) !! 5%nat = Some cp /\
    cp_title cp = "Security" /\
    Text (category_score_text cp) 20 140 ∈ out /\ Text "Outstanding Items:" 14 140 ∈ out.
Proof.
  intros out. eexists. split; [reflexivity|]. split; [reflexivity|]. split.
  - apply elem_of_app. right. apply elem_of_app. left.
    rewrite (category_lines_of_scores categories st); [|discriminate|apply categories_titles_plain].
    apply list_elem_of_lookup. exists 5%nat. by rewrite list_lookup_imap.
  - apply elem_of_app. right. apply elem_of_app. right. apply elem_of_app. left. left.
Qed.

(** C29 (bounds).  Every text of the PDF of the shipped catalog, for
    every state, is printed at y <= 200 mm: the report fits on the
    first A4 page (297 mm), since there are six category lines and at
    most six outstanding lines. *)
Theorem export_fits_page st :
  Forall (fun c => match text_y c with Some y => (y <= 200)%nat | None => True end)
         (exportPDF (renderSummary categories st (computeScores categories st))).
Proof.
  unfold exportPDF. repeat apply Forall_app_2.
  - repeat constructor.
  - rewrite (category_lines_of_scores categories st); [|discriminate|apply categories_titles_plain].
    apply Forall_imap. intros i cp Hi. simpl in *. lia.
  - repeat constructor.
  - unfold outstanding_pdf_lines. apply Forall_imap. intros i li Hi. simpl.
    pose proof (top_outstanding_length_sums categories (checks st)) as Ht.
    destruct (outstanding_lines_length (top_outstanding categories (checks st))); [lia|].
    simpl in Hi. lia.
  - repeat constructor.
Qed.

(** C19 (functional).  When every item is checked, the PDF lists the
    placeholder sentence "All items checked — great job!" as an
    outstanding item ("- All items checked — great job!" at y = 150):
    the export copies the [li] elements, placeholder included. *)
Theorem export_lists_placeholder cats st :
  (forall id, id ∈ item_ids cats -> is_checked (checks st) id = true) ->
  Text ("- " +:+ all_clear_text) 20 150 ∈ exportPDF (renderSummary cats st (computeScores cats st)).
Proof.
  intros Hall. unfold exportPDF.
  apply elem_of_app. right. apply elem_of_app. right. apply elem_of_app. right.
  apply elem_of_app. left. unfold outstanding_pdf_lines. cbn [renderSummary outOutstanding].
  rewrite (top_outstanding_all_checked cats (checks st) Hall). left.
Qed.

(** ** Witnesses *)

(** The shipped catalog with every item ticked. *)
Lemma export_lists_placeholder_witness :
  Text ("- " +:+ all_clear_text) 20 150 ∈
    exportPDF (renderSummary categories (all_checked_state categories)
                             (computeScores categories (all_checked_state categories))).
Proof.
  apply (export_lists_placeholder categories (all_checked_state categories)).
  intros id Hid. revert id Hid. apply Forall_forall. vm_decide.
Defined.
