(* ===== verification/App.v ===== *)
(** * App: the page and its event handlers (src/script.js, lines 98-156, 261-287, 324)

    The program is an event loop: renderChecklist builds the
    checklist's elements and attaches the listeners, the top level
    runs renderChecklist and updateSummary once, and from then on
    every user event runs one handler to completion.  The model is a
    record [app] of the [state] of Scoring.v and the part of the page
    the handlers read or write ([page]): the [checked] flag of each
    checkbox, the [value] of each notes textarea, the [open] class of
    each section body, the seven summary outputs and the chart.

    [step] runs the handler of one event: a click on a checkbox (the
    browser flips [checked], then the change listener of line 143
    runs), typing in a notes textarea (line 152), a click on a section
    header (line 131), Expand all / Collapse all / Clear all (lines
    269-279) and Export (line 324).  Events exist only for elements
    that exist: a checkbox click names an item of the catalog, a notes
    input a category of the catalog.  [reachable] is the set of pages
    the loop can reach from the initial page, by rule induction.

    The theorems: every reachable page displays the scores of its
    current state (a query after a mutation observes it), its
    checkboxes and textareas agree with the state, the state holds no
    key outside the catalog, the UI-only events change neither the
    state nor the display, notes survive Clear all, and every set of
    items can be reached as the set of checked items. *)

From S2P Require Import Prelude JsBuiltins Catalog Scoring Summary Chart Export.

(** The elements the handlers touch. *)
Record page := mkPage {
  cb_checked : gmap string bool;     (* checkbox [checked], by item id *)
  ta_value : gmap string string;     (* textarea [value], by category id *)
  sections_open : list bool;         (* [open] class of each section body *)
  view : summary_view;               (* the seven output elements *)
  chart : list svg_part              (* the content of the svg *)
}.

Record app := mkApp { app_state : state; app_page : page }.

(** A checkbox that was never touched is unchecked; an untouched
    textarea is empty. *)
Definition checkbox_checked (d : page) (id : string) : bool :=
  match cb_checked d !! id with Some b => b | None => false end.

Definition textarea_value (d : page) (cid : string) : string :=
  match ta_value d !! cid with Some t => t | None => "" end.

(** The user events the page reacts to. *)
Inductive event :=
  | CheckboxClick (id : string)
  | NotesInput (cid : string) (text : string)
  | SectionHeaderClick (i : nat)
  | ExpandAllClick
  | CollapseAllClick
  | ClearAllClick
  | ExportClick.

(** The outputs before updateSummary first writes them. *)
Definition empty_view : summary_view := mkSummary "" "" "" "" "" "" [].

Section App.
Context (cats : list Category.t) (grid_color blue_color : string).

(** updateSummary, lines 262-266. *)
Definition updateSummary (a : app) : app :=
  let s := computeScores cats (app_state a) in
  let d := app_page a in
  mkApp (app_state a)
        (mkPage (cb_checked d) (ta_value d) (sections_open d)
               (renderSummary cats (app_state a) s) (drawChart grid_color blue_color s)).

(** renderChecklist, lines 99-156: unchecked checkboxes, empty
    textareas, the first two section bodies open (line 138). *)
Definition renderChecklist : app :=
  mkApp initial_state
        (mkPage ∅ ∅ (imap (fun i _ => bool_decide (i < 2)%nat) cats) empty_view []).

(** Lines 282-283. *)
Definition init : app := updateSummary renderChecklist.

Definition set_dom_checkbox (id : string) (b : bool) (d : page) : page :=
  mkPage (<[id := b]> (cb_checked d)) (ta_value d) (sections_open d) (view d) (chart d).

Definition set_dom_textarea (cid : string) (t : string) (d : page) : page :=
  mkPage (cb_checked d) (<[cid := t]> (ta_value d)) (sections_open d) (view d) (chart d).

Definition set_sections (f : list bool -> list bool) (d : page) : page :=
  mkPage (cb_checked d) (ta_value d) (f (sections_open d)) (view d) (chart d).

(** Line 277: every checkbox of the checklist is unchecked. *)
Definition uncheck_all_boxes (d : page) : page :=
  mkPage (foldr (fun id m => <[id := false]> m) (cb_checked d) (item_ids cats))
        (ta_value d) (sections_open d) (view d) (chart d).

(** One event, run to completion; Export also produces the PDF. *)
Definition step (a : app) (e : event) : app * option (list pdf_cmd) :=
  let st := app_state a in
  let d := app_page a in
  match e with
  | CheckboxClick id =>
      if decide (id ∈ item_ids cats) then
        let b := negb (checkbox_checked d id) in
        (updateSummary (mkApp (set_check id b st) (set_dom_checkbox id b d)), None)
      else (a, None)
  | NotesInput cid t =>
      if decide (cid ∈ category_ids cats) then
        (mkApp (set_note cid t st) (set_dom_textarea cid t d), None)
      else (a, None)
  | SectionHeaderClick i => (mkApp st (set_sections (alter negb i) d), None)
  | ExpandAllClick => (mkApp st (set_sections (map (fun _ => true)) d), None)
  | CollapseAllClick => (mkApp st (set_sections (map (fun _ => false)) d), None)
  | ClearAllClick => (updateSummary (mkApp (clear_checks st) (uncheck_all_boxes d)), None)
  | ExportClick => (a, Some (exportPDF (view d)))
  end.

(** The pages the event loop reaches. *)
Inductive reachable : app -> Prop :=
  | reachable_init : reachable init
  | reachable_step a e : reachable a -> reachable (fst (step a e)).

(** A run of a sequence of events from a page. *)
Definition run (a : app) (es : list event) : app := fold_left (fun a e => fst (step a e)) es a.
End App.

(** A session on the shipped catalog: tick two items, untick one, type
    a note, open a section, clear everything, tick one item. *)
Definition sample_events : list event :=
  [CheckboxClick "https"; CheckboxClick "cdn"; NotesInput "seo" "check titles";
   CheckboxClick "cdn"; SectionHeaderClick 3; ClearAllClick; CheckboxClick "meta-title"].

Definition sample_page : app :=
  run categories "grid" "blue" (init categories "grid" "blue") sample_events.

(** ** The invariant of the page *)

Section Invariant.
Context (cats : list Category.t) (grid_color blue_color : string).

(** The outputs show the scores of the current state. *)
Definition display_ok (a : app) : Prop :=
  view (app_page a) = renderSummary cats (app_state a) (computeScores cats (app_state a)) /\
  chart (app_page a) = drawChart grid_color blue_color (computeScores cats (app_state a)).

(** The checkboxes show [state.checks] and the textareas [state.notes]. *)
Definition controls_ok (a : app) : Prop :=
  (forall id, checkbox_checked (app_page a) id = is_checked (checks (app_state a)) id) /\
  (forall cid, textarea_value (app_page a) cid =
                 match notes (app_state a) !! cid with Some t => t | None => "" end).

(** The state only has keys of the catalog. *)
Definition keys_ok (a : app) : Prop :=
  (forall id, is_Some (checks (app_state a) !! id) -> id ∈ item_ids cats) /\
  (forall cid, is_Some (notes (app_state a) !! cid) -> cid ∈ category_ids cats).

Definition app_inv (a : app) : Prop :=
  display_ok a /\ controls_ok a /\ keys_ok a /\
  length (sections_open (app_page a)) = length cats.

Lemma updateSummary_display a : display_ok (updateSummary cats grid_color blue_color a).
Proof. split; reflexivity. Qed.

Lemma foldr_insert_false_lookup (l : list string) (m : gmap string bool) k :
  foldr (fun id m => <[id := false]> m) m l !! k = if decide (k ∈ l) then Some false else m !! k.
Proof.
  induction l as [|k' l IH]; cbn [foldr]; [case_decide; set_solver|].
  rewrite lookup_insert, IH. repeat case_decide; set_solver.
Qed.

Lemma init_inv : app_inv (init cats grid_color blue_color).
Proof.
  split; [apply updateSummary_display|]. split; [split; intros; reflexivity|].
  split; [split; intros ? [? Hk]; discriminate Hk|]. simpl. apply length_imap.
Qed.

Lemma step_inv a e : app_inv a -> app_inv (fst (step cats grid_color blue_color a e)).
Proof.
  destruct a as [st d]. intros (Hdisp & [Hcb Hta] & [Hkc Hkn] & Hlen).
  destruct e as [id|cid t|i| | | |]; cbn [fst step].
  - case_decide as Hid; [|done]. split; [apply updateSummary_display|]. split; [split|split; [split|]].
    + intros id'. specialize (Hcb id'). unfold checkbox_checked, is_checked in *. simpl.
      rewrite !lookup_insert. case_decide; [by destruct (negb _)|done].
    + apply Hta.
    + intros id' [b Hb]. simpl in Hb. rewrite lookup_insert in Hb.
      case_decide; [by subst|by apply Hkc].
    + apply Hkn.
    + done.
  - case_decide as Hc; [|done]. split; [exact Hdisp|]. split; [split|split; [split|]].
    + apply Hcb.
    + intros cid'. unfold textarea_value. simpl. rewrite !lookup_insert.
      case_decide; [done|apply Hta].
    + apply Hkc.
    + intros cid' [t' Ht]. simpl in Ht. rewrite lookup_insert in Ht.
      case_decide; [by subst|by apply Hkn].
    + done.
  - split; [exact Hdisp|]. split; [exact (conj Hcb Hta)|]. split; [exact (conj Hkc Hkn)|].
    simpl. by rewrite length_alter.
  - split; [exact Hdisp|]. split; [exact (conj Hcb Hta)|]. split; [exact (conj Hkc Hkn)|].
    simpl. by rewrite length_map.
  - split; [exact Hdisp|]. split; [exact (conj Hcb Hta)|]. split; [exact (conj Hkc Hkn)|].
    simpl. by rewrite length_map.
  - split; [apply updateSummary_display|]. split; [split|split; [split|]].
    + intros id. unfold checkbox_checked.
      cbn [app_page app_state updateSummary uncheck_all_boxes cb_checked].
      rewrite foldr_insert_false_lookup, clear_checks_fmap, is_checked_fmap_false.
      case_decide as Hid; [done|].
      specialize (Hcb id). unfold checkbox_checked in Hcb. cbn [app_page app_state] in *.
      rewrite Hcb. unfold is_checked. destruct (checks st !! id) eqn:E; [|done].
      exfalso. apply Hid, Hkc. by rewrite E.
    + apply Hta.
    + intros id Hs. cbn [app_state updateSummary] in Hs.
      rewrite clear_checks_fmap, lookup_fmap, fmap_is_Some in Hs. by apply Hkc.
    + apply Hkn.
    + done.
  - exact (conj Hdisp (conj (conj Hcb Hta) (conj (conj Hkc Hkn) Hlen))).
Qed.

Lemma reachable_inv a : reachable cats grid_color blue_color a -> app_inv a.
Proof. induction 1; [apply init_inv|by apply step_inv]. Qed.
End Invariant.

(** ** Properties of the event loop *)

Section Properties.
Context (cats : list Category.t) (grid_color blue_color : string).

Lemma run_reachable a es :
  reachable cats grid_color blue_color a ->
  reachable cats grid_color blue_color (run cats grid_color blue_color a es).
Proof.
  revert a; induction es as [|e es IH]; intros a Ha; [done|]. simpl. apply IH.
  by apply reachable_step.
Qed.

(** C3 (invariant).  On every page the event loop reaches, the
    summary outputs and the chart show the scores of the current state:
    a score read after any sequence of events observes all of them. *)
Theorem reachable_display_current a :
  reachable cats grid_color blue_color a ->
  view (app_page a) = renderSummary cats (app_state a) (computeScores cats (app_state a)) /\
  chart (app_page a) = drawChart grid_color blue_color (computeScores cats (app_state a)).
Proof. intros Ha. apply (reachable_inv cats grid_color blue_color a Ha). Qed.

(** C6 (invariant).  On every reachable page each checkbox is checked
    exactly when [state.checks] marks its item, and each notes textarea
    holds [state.notes] of its category (empty when absent). *)
Theorem reachable_controls_agree a :
  reachable cats grid_color blue_color a ->
  (forall id, checkbox_checked (app_page a) id = is_checked (checks (app_state a)) id) /\
  (forall cid, textarea_value (app_page a) cid =
                 match notes (app_state a) !! cid with Some t => t | None => "" end).
Proof. intros Ha. apply (reachable_inv cats grid_color blue_color a Ha). Qed.

(** C9 (invariant).  The state of every reachable page has no orphan
    key: every key of [state.checks] is an item id of the catalog and
    every key of [state.notes] a category id. *)
Theorem reachable_no_orphan_keys a :
  reachable cats grid_color blue_color a ->
  (forall id, id ∈ dom (checks (app_state a)) -> id ∈ item_ids cats) /\
  (forall cid, cid ∈ dom (notes (app_state a)) -> cid ∈ category_ids cats).
Proof.
  intros Ha. destruct (reachable_inv cats grid_color blue_color a Ha) as (_ & _ & [Hc Hn] & _).
  split; intros k Hk; apply elem_of_dom in Hk; auto.
Qed.


(** C21 (functional).  Export from a reachable page prints the report
    of the current scores: its text commands are [exportPDF] of the
    summary of the current state. *)
Theorem export_reflects_state a :
  reachable cats grid_color blue_color a ->
  snd (step cats grid_color blue_color a ExportClick) =
    Some (exportPDF (renderSummary cats (app_state a) (computeScores cats (app_state a)))).
Proof.
  intros Ha. destruct (reachable_inv cats grid_color blue_color a Ha) as [[Hv _] _].
  simpl. by rewrite Hv.
Qed.

(** C20 (functional).  Notes survive Clear all: typing a note in a
    category of a reachable page and then clicking Clear all leaves the
    note in [state.notes] and in its textarea, while every item and
    every checkbox is unchecked. *)
Theorem notes_survive_clear a cid t :
  reachable cats grid_color blue_color a -> cid ∈ category_ids cats ->
  let a' := run cats grid_color blue_color a [NotesInput cid t; ClearAllClick] in
  notes (app_state a') !! cid = Some t /\ textarea_value (app_page a') cid = t /\
  (forall id, is_checked (checks (app_state a')) id = false /\
              checkbox_checked (app_page a') id = false).
Proof.
  intros Ha Hc a'.
  assert (Hr : reachable cats grid_color blue_color a') by (by apply run_reachable).
  destruct (reachable_inv cats grid_color blue_color a' Hr) as (_ & [Hcb Hta] & _).
  assert (Hn : notes (app_state a') !! cid = Some t).
  { subst a'. cbn [run fold_left fst step]. case_decide; [|contradiction].
    cbn [app_state updateSummary]. unfold clear_checks, set_note. cbn [notes app_state].
    simpl. by rewrite lookup_insert_eq. }
  assert (Hk : forall id, is_checked (checks (app_state a')) id = false).
  { intros id. subst a'. cbn [run fold_left fst step]. case_decide; [|contradiction].
    cbn [app_state updateSummary]. by rewrite clear_checks_fmap, is_checked_fmap_false. }
  split; [done|]. split; [by rewrite Hta, Hn|]. intros id. by rewrite Hcb, Hk.
Qed.
(** Clicking a list of distinct unchecked items checks exactly them. *)
Lemma run_clicks_checked a S :
  reachable cats grid_color blue_color a -> NoDup S -> (forall id, id ∈ S -> id ∈ item_ids cats) ->
  (forall id, id ∈ S -> is_checked (checks (app_state a)) id = false) ->
  forall id,
    is_checked (checks (app_state (run cats grid_color blue_color a (map CheckboxClick S)))) id =
      is_checked (checks (app_state a)) id || bool_decide (id ∈ S).
Proof.
  revert a; induction S as [|x S IH]; intros a Ha Hnd Hin Hun id.
  - rewrite bool_decide_eq_false_2; [by rewrite orb_false_r|set_solver].
  - apply NoDup_cons in Hnd as [Hx Hnd].
    set (a1 := fst (step cats grid_color blue_color a (CheckboxClick x))).
    assert (Ha1 : reachable cats grid_color blue_color a1) by (by apply reachable_step).
    destruct (reachable_inv cats grid_color blue_color a Ha) as (_ & [Hcb _] & _).
    assert (Hx1 : forall id, is_checked (checks (app_state a1)) id =
                    if decide (x = id) then true else is_checked (checks (app_state a)) id).
    { intros id'. subst a1. cbn [fst step]. rewrite decide_True by (apply Hin; left).
      cbn [fst app_state updateSummary]. rewrite is_checked_set_check, Hcb, Hun by left. done. }
    change (run cats grid_color blue_color a (map CheckboxClick (x :: S)))
      with (run cats grid_color blue_color a1 (map CheckboxClick S)).
    rewrite IH; [|done|done|intros; apply Hin; by right|].
    + rewrite Hx1. destruct (decide (x = id)) as [->|Hne].
      * rewrite (bool_decide_eq_true_2 (id ∈ id :: S)); [by rewrite orb_true_r|left].
      * f_equal. apply bool_decide_ext. set_solver.
    + intros id' Hid'. rewrite Hx1. rewrite decide_False by set_solver. apply Hun. by right.
Qed.

(** C22 (liveness).  Every set of catalog items is reachable as the set
    of checked items: clicking each item of a duplicate-free list once,
    from the initial page, reaches a page whose checked items are
    exactly those of the list. *)
Theorem any_selection_reachable S :
  NoDup S -> (forall id, id ∈ S -> id ∈ item_ids cats) ->
  let a := run cats grid_color blue_color (init cats grid_color blue_color) (map CheckboxClick S) in
  reachable cats grid_color blue_color a /\
  (forall id, is_checked (checks (app_state a)) id = bool_decide (id ∈ S)).
Proof.
  intros Hnd Hin a. split; [apply run_reachable, reachable_init|]. intros id.
  subst a. rewrite run_clicks_checked; [done|apply reachable_init|done|done|].
  intros; reflexivity.
Qed.
End Properties.

(** ** Witnesses *)

Lemma sample_page_reachable : reachable categories "grid" "blue" sample_page.
Proof. apply run_reachable, reachable_init. Qed.

Lemma reachable_display_current_witness :
  reachable categories "grid" "blue" sample_page /\
  outCompleted (view (app_page sample_page)) = "1".
Proof.
  split; [exact sample_page_reachable|].
  rewrite (proj1 (reachable_display_current categories "grid" "blue" sample_page
                    sample_page_reachable)).
  vm_compute. reflexivity.
Defined.

Lemma reachable_controls_agree_witness :
  reachable categories "grid" "blue" sample_page /\
  checkbox_checked (app_page sample_page) "meta-title" = true.
Proof.
  split; [exact sample_page_reachable|].
  rewrite (proj1 (reachable_controls_agree categories "grid" "blue" sample_page
                    sample_page_reachable)).
  vm_compute. reflexivity.
Defined.

Lemma reachable_no_orphan_keys_witness :
  reachable categories "grid" "blue" sample_page /\
  ("https" ∈ dom (checks (app_state sample_page)) -> "https" ∈ item_ids categories).
Proof.
  split; [exact sample_page_reachable|].
  apply (reachable_no_orphan_keys categories "grid" "blue" sample_page sample_page_reachable).
Defined.

Lemma export_reflects_state_witness :
  reachable categories "grid" "blue" sample_page /\
  snd (step categories "grid" "blue" sample_page ExportClick) =
    Some (exportPDF (renderSummary categories (app_state sample_page)
                      (computeScores categories (app_state sample_page)))).
Proof.
  split; [exact sample_page_reachable|].
  apply (export_reflects_state categories "grid" "blue" sample_page sample_page_reachable).
Defined.

Lemma notes_survive_clear_witness :
  reachable categories "grid" "blue" sample_page /\ "content" ∈ category_ids categories /\
  textarea_value (app_page (run categories "grid" "blue" sample_page
                              [NotesInput "content" "refresh copy"; ClearAllClick]))
                 "content" = "refresh copy".
Proof.
  assert (Hc : "content" ∈ category_ids categories) by vm_decide.
  split; [exact sample_page_reachable|split; [exact Hc|]].
  apply (notes_survive_clear categories "grid" "blue" sample_page "content" "refresh copy"
           sample_page_reachable Hc).
Defined.

Lemma any_selection_reachable_witness :
  NoDup ["https"; "cdn"; "alt-text"] /\
  (forall id, id ∈ ["https"; "cdn"; "alt-text"] -> id ∈ item_ids categories) /\
  is_checked (checks (app_state (run categories "grid" "blue" (init categories "grid" "blue")
                                   (map CheckboxClick ["https"; "cdn"; "alt-text"])))) "cdn" = true.
Proof.
  assert (H1 : NoDup ["https"; "cdn"; "alt-text"]) by vm_decide.
  assert (H2 : forall id, id ∈ ["https"; "cdn"; "alt-text"] -> id ∈ item_ids categories)
    by (apply Forall_forall; vm_decide).
  split; [exact H1|split; [exact H2|]].
  rewrite (proj2 (any_selection_reachable categories "grid" "blue" _ H1 H2)). vm_decide.
Defined.
